(** * The cache engine of the flash node: a shallow embedding.

    The development follows [cache_engine.go] (package [cache_engine]):
    the engine facade over an LRU index, four key-shard locks, a bounded
    prepare queue and a tmpfs backing store.

    Conventions.
    - Unsigned Go integers ([uint64], [uint32]) are [N]; signed ones
      ([int], [int64], [time.Duration]) are [Z], with the 64-bit
      wrap-around written out where the code does arithmetic on them.
    - Go strings are [string] (sequences of bytes).
    - A Go [error] is [option Err]; [None] is [nil].
    - Methods of the engine run in a state monad over a [World]: the
      receiver, the operating system's view of the root path, the clock,
      and the trace of every call that leaves the engine (locks, LRU
      methods, monitor and log callbacks, system calls).  A computation
      ends normally or panics. *)

From Stdlib Require Import ZArith NArith List String Ascii Bool Lia.
From Stdlib Require Import Decimal DecimalString DecimalN.
Import ListNotations.

Local Open Scope string_scope.
Local Open Scope Z_scope.

(** ** Block keys *)

(** [strconv.FormatUint(n, 10)]: the shortest decimal numeral of [n]. *)
Definition FormatUint (n : N) : string :=
  NilEmpty.string_of_uint (N.to_uint n).

(** [GenCacheBlockKey]: [volume "/" inode "#" offset "#" version]. *)
Definition GenCacheBlockKey (volume : string) (inode offset : N) (version : N)
  : string :=
  volume ++ "/" ++ FormatUint inode ++ "#" ++ FormatUint offset
         ++ "#" ++ FormatUint version.

(** [strings.Split(s, sep)[0]] for a one-byte separator: the text before
    the first [sep], the whole of [s] when there is none. *)
Fixpoint firstField (sep : ascii) (s : string) : string :=
  match s with
  | EmptyString => EmptyString
  | String c rest =>
      if Ascii.eqb c sep then EmptyString else String c (firstField sep rest)
  end.

(** A byte occurs in a string. *)
Fixpoint occurs (c : ascii) (s : string) : bool :=
  match s with
  | EmptyString => false
  | String d rest => Ascii.eqb d c || occurs c rest
  end.

Definition isDigit (c : ascii) : bool :=
  let n := N_of_ascii c in (48 <=? n)%N && (n <=? 57)%N.

Fixpoint allDigits (s : string) : bool :=
  match s with
  | EmptyString => true
  | String c rest => isDigit c && allDigits rest
  end.

(** ** Errors, values, requests *)

(** Error values.  [CacheExpireError] is the LRU's sentinel, compared by
    identity in [GetCacheBlockForRead]; [ErrNotExist] is what
    [os.IsNotExist] recognises; [ErrNew] is [errors.New] or [fmt.Errorf]
    over a literal; [ErrWrap] is [fmt.Errorf] over another error. *)
Inductive Err : Type :=
| CacheExpireError
| ErrNotExist
| ErrNew (msg : string)
| ErrWrap (msg : string) (cause : Err).

Definition error : Type := option Err.

Definition IsNotExist (e : Err) : bool :=
  match e with ErrNotExist => true | _ => false end.

Definition isCacheExpireError (e : Err) : bool :=
  match e with CacheExpireError => true | _ => false end.

(** [time.Second] in nanoseconds, the unit of [time.Duration]. *)
Definition Second : Z := 1000000000.

(** Two's-complement reading of an integer as an [int64]. *)
Definition wrap64 (z : Z) : Z := (z + 2 ^ 63) mod 2 ^ 64 - 2 ^ 63.

(** [uint64(n)] for an [int] [n]. *)
Definition uint64_of_int (n : Z) : N := Z.to_N (n mod 2 ^ 64).

Module proto.

(** Modelled from the spec: [proto.DataSource], declared in package
    [proto]; the fields are those of the spec's wire shape. *)
Record DataSource : Type := {
  PartitionID : N;
  ExtentID : N;
  ExtentOffset : N;
  SizeInBlock : N;
  Size_ : N;
  Hosts : list string
}.

(** Modelled from the spec: [proto.CacheRequest], declared in package
    [proto]; the engine reads [Volume], [Inode], [FixedFileOffset],
    [Version], [TTL] and [Sources]. *)
Record CacheRequest : Type := {
  Volume : string;
  Inode : N;
  FixedFileOffset : N;
  Version : N;
  TTL : Z;
  Sources : list DataSource
}.

(** The monitor's action codes used by the engine. *)
Inductive Action : Type :=
| ActionCacheHit
| ActionCacheMiss
| ActionCacheExpire
| ActionCacheEvict.

(** [proto.CacheStatus] as [Status] fills it.  [HitRate] is a [float64]
    rounded with [math.Trunc]; it is left out of the embedding. *)
Record CacheStatus : Type := {
  MaxAlloc : Z;
  HasAlloc : Z;
  Total : Z;
  Num : Z;
  Evicts : Z;
  Capacity : Z;
  Used : Z
}.

End proto.

Record cachePrepareTask : Type := {
  request : proto.CacheRequest;
  reqID : Z
}.

Record CacheConfig : Type := {
  MaxAlloc : Z;
  Total : Z;
  Capacity : Z
}.

(** A [*CacheBlock].  [blockAddr] is the identity of the allocation: two
    blocks built by two calls of [NewCacheBlock] differ in it even when
    every other field agrees. *)
Record CacheBlock : Type := {
  blockAddr : nat;
  blockRoot : string;
  blockVolume : string;
  blockInode : N;
  blockOffset : N;
  blockVersion : N;
  blockAllocSize : N
}.

(** An [interface{}] as the LRU stores and returns it. *)
Inductive Value : Type :=
| VNil
| VBlock (cb : CacheBlock)
| VOther (tag : nat).

(** ** The operating system's view of the root path *)

Inductive FsType : Type := Tmpfs | OtherFs.

(** [syscall.Statfs_t], the fields at stake: [Blocks] is the total number
    of data blocks of the file system, [Bfree] the number of free ones,
    [Bsize] the block size. *)
Record Statfs_t : Type := {
  Blocks : N;
  Bfree : N;
  Bsize : Z
}.

(** One mount on the root path: its type, its figures, and the names at
    its top directory. *)
Record Mount : Type := {
  mType : FsType;
  mStat : Statfs_t;
  mEntries : list string
}.

Inductive Syscall : Type :=
| ScMkdirAll | ScStat | ScIsMountPoint | ScUmount | ScReadDir
| ScMountTmpfs | ScOpenFile | ScStatfs.

(** The root path is absent, or a directory with the names it holds
    itself and the stack of mounts on it (the latest first). *)
Inductive RootState : Type :=
| Absent
| Present (entries : list string) (mounts : list Mount).

(** The machine: the root path, the figures of the file system under it,
    and which system calls fail for reasons of their own (permissions,
    I/O). *)
Record OS : Type := {
  root : RootState;
  rootStat : Statfs_t;
  failing : Syscall -> bool
}.

Definition withRoot (o : OS) (r : RootState) : OS :=
  {| root := r; rootStat := rootStat o; failing := failing o |}.

(** The names seen at the root path: those of the latest mount, or the
    directory's own. *)
Definition visibleEntries (entries : list string) (mounts : list Mount)
  : list string :=
  match mounts with
  | [] => entries
  | m :: _ => mEntries m
  end.

Fixpoint hasName (name : string) (es : list string) : bool :=
  match es with
  | [] => false
  | e :: rest => String.eqb e name || hasName name rest
  end.

(** [os.MkdirAll(root, 0755)]. *)
Definition MkdirAll (o : OS) : error * OS :=
  if failing o ScMkdirAll then (Some (ErrNew "mkdir"), o)
  else match root o with
       | Absent => (None, withRoot o (Present [] []))
       | Present _ _ => (None, o)
       end.

(** [os.Stat(root)]. *)
Definition Stat (o : OS) : error :=
  if failing o ScStat then Some (ErrNew "stat")
  else match root o with
       | Absent => Some ErrNotExist
       | Present _ _ => None
       end.

(** [os.Stat(root + "/" + name)]. *)
Definition StatFile (name : string) (o : OS) : error :=
  if failing o ScStat then Some (ErrNew "stat")
  else match root o with
       | Absent => Some ErrNotExist
       | Present es ms =>
           if hasName name (visibleEntries es ms) then None
           else Some ErrNotExist
       end.

(** [os.ReadDir(root)]. *)
Definition ReadDir (o : OS) : list string * error :=
  if failing o ScReadDir then ([], Some (ErrNew "readdir"))
  else match root o with
       | Absent => ([], Some ErrNotExist)
       | Present es ms => (visibleEntries es ms, None)
       end.

(** [os.OpenFile(root + "/" + name, os.O_CREATE, 0666)] followed by
    [Close]: the file is created empty when it is not there. *)
Definition CreateFile (name : string) (o : OS) : error * OS :=
  if failing o ScOpenFile then (Some (ErrNew "open"), o)
  else match root o with
       | Absent => (Some ErrNotExist, o)
       | Present es ms =>
           if hasName name (visibleEntries es ms) then (None, o)
           else match ms with
                | [] => (None, withRoot o (Present (name :: es) []))
                | m :: ms' =>
                    (None,
                     withRoot o
                       (Present es
                          ({| mType := mType m; mStat := mStat m;
                              mEntries := name :: mEntries m |} :: ms')))
                end
       end.

(** [syscall.Statfs(root, &stat)]: the figures of the file system that
    holds the root path. *)
Definition Statfs (o : OS) : Statfs_t * error :=
  let zero := {| Blocks := 0; Bfree := 0; Bsize := 0 |} in
  if failing o ScStatfs then (zero, Some (ErrNew "statfs"))
  else match root o with
       | Absent => (zero, Some ErrNotExist)
       | Present _ [] => (rootStat o, None)
       | Present _ (m :: _) => (mStat m, None)
       end.

(** Bytes in use on a file system: the blocks that are not free, times
    the block size. *)
Definition consumedBytes (st : Statfs_t) : Z :=
  (Z.of_N (Blocks st) - Z.of_N (Bfree st)) * Bsize st.

Module tmpfs.

(** The block size of a tmpfs: the page size. *)
Definition pageSize : Z := 4096.

(** Modelled from the spec: what [tmpfs.MountTmpfs] of package
    [util/tmpfs] mounts, "a fresh memfs of [total] bytes": empty, every
    block free. *)
Definition fresh (size : Z) : Mount :=
  {| mType := Tmpfs;
     mStat := {| Blocks := Z.to_N (size / pageSize);
                 Bfree := Z.to_N (size / pageSize);
                 Bsize := pageSize |};
     mEntries := [] |}.

(** Modelled from the spec: [tmpfs.IsMountPoint] of package
    [util/tmpfs], the backing store's [is_mounted]. *)
Definition IsMountPoint (o : OS) : bool * error :=
  if failing o ScIsMountPoint then (false, Some (ErrNew "mountinfo"))
  else match root o with
       | Absent => (false, Some ErrNotExist)
       | Present _ [] => (false, None)
       | Present _ (_ :: _) => (true, None)
       end.

(** Modelled from the spec: [tmpfs.IsTmpfs] of package [util/tmpfs],
    the backing store's [is_memfs]: the latest mount is a tmpfs. *)
Definition IsTmpfs (o : OS) : bool :=
  match root o with
  | Present _ (m :: _) =>
      match mType m with Tmpfs => true | OtherFs => false end
  | _ => false
  end.

(** Modelled from the spec: [tmpfs.MountTmpfs] of package [util/tmpfs],
    the backing store's [mount]: a fresh tmpfs on top of what is
    there. *)
Definition MountTmpfs (size : Z) (o : OS) : error * OS :=
  if failing o ScMountTmpfs then (Some (ErrNew "mount"), o)
  else match root o with
       | Absent => (Some ErrNotExist, o)
       | Present es ms => (None, withRoot o (Present es (fresh size :: ms)))
       end.

(** Modelled from the spec: [tmpfs.Umount] of package [util/tmpfs], the
    backing store's [unmount]: the latest mount goes. *)
Definition Umount (o : OS) : error * OS :=
  if failing o ScUmount then (Some (ErrNew "umount"), o)
  else match root o with
       | Absent => (Some ErrNotExist, o)
       | Present _ [] => (Some (ErrNew "umount: not mounted"), o)
       | Present es (_ :: ms) => (None, withRoot o (Present es ms))
       end.

End tmpfs.

(** ** Calls that leave the engine *)

Inductive Event : Type :=
(* the four key-shard locks, by index *)
| EvRLock (stripe : Z)
| EvRUnlock (stripe : Z)
| EvLock (stripe : Z)
| EvUnlock (stripe : Z)
(* methods of the LRU *)
| EvLruGet (key : string)
| EvLruPeek (key : string)
| EvLruSet (key : string) (v : Value) (ttl : Z)
| EvLruEvict (key : string)
| EvLruKeys
| EvLruClose
(* the destructors handed to [NewCache]: [cb.Close()], [cb.Delete()] *)
| EvOnClose (v : Value)
| EvOnDelete (v : Value)
(* the host's callbacks *)
| EvMonitor (volume : string) (action : proto.Action) (dataSize : N)
| EvLogInfo (msg : string)
| EvLogWarn (msg : string)
| EvLogError (msg : string)
| EvExporterWarning (msg : string)
(* cache blocks *)
| EvNewCacheBlock (cb : CacheBlock)
| EvInitCacheStore (cb : CacheBlock)
(* channels and time *)
| EvChanClose
| EvSleep (d : Z)
(* system calls that change the root path *)
| EvMkdirAll (path : string)
| EvMountTmpfs (path : string) (size : Z)
| EvUmount (path : string)
| EvCreateFile (path : string).

(** How a computation ends. *)
Inductive Res (A : Type) : Type :=
| Ok (a : A)
| Panicked (r : string).
Arguments Ok {A} a.
Arguments Panicked {A} r.

(** ** The LRU, as the engine sees it *)

(** The Go interface [LruCache].  A method takes the clock where its
    answer depends on it, and returns, besides its results, the new index
    and the destructor calls it made.  [lru_Peek] touches nothing; like
    any call it may panic, which is what [PeekCacheBlock] recovers from.
    [HitRate] (a [float64]) is left out. *)
Class LruCache (L : Type) : Type := {
  NewCache : Z -> Z -> Z -> L;
  lru_Get : string -> Z -> L -> (Value * error) * L * list Event;
  lru_Peek : string -> Z -> L -> Res (Value * bool);
  lru_Set : string -> Value -> Z -> Z -> L -> (Z * error) * L * list Event;
  lru_Evict : string -> L -> bool * L * list Event;
  lru_EvictAll : L -> L * list Event;
  lru_Keys : L -> list string;
  lru_Status : L -> Z * Z;
  lru_RecentEvict : L -> Z;
  lru_Close : L -> error * L * list Event
}.

(** What the engine takes from the rest of the repository, by signature:
    [fastcrc32.Checksum], [computeAllocSize],
    the block method [initCacheStore], the constants
    [proto.DefaultCacheTTLSec] and [InitFileName]. *)
Class Externals : Type := {
  Checksum : string -> Z;
  computeAllocSize : list proto.DataSource -> N * error;
  initCacheStore : CacheBlock -> OS -> error * OS;
  DefaultCacheTTLSec : Z;
  InitFileName : string
}.

(** ** The engine and its world *)

Inductive ChanState : Type := ChanNil | ChanOpen | ChanClosed.

(** [CacheEngine].  The callbacks [readSourceFunc] and [monitorFunc] and
    the four locks show as events; [initStore] and [dropStore] are the
    closures [doMount] and [tmpfs.Umount] that [NewCacheEngine] installs.
    [cachePrepareTaskCh] holds the tasks buffered in the channel, oldest
    first. *)
Record CacheEngine (L : Type) : Type := {
  rootPath : string;
  cachePrepareTaskCh : list cachePrepareTask;
  lruCache : L;
  closeC : ChanState;
  closed : bool;
  config : CacheConfig
}.
Arguments rootPath {L} c.
Arguments cachePrepareTaskCh {L} c.
Arguments lruCache {L} c.
Arguments closeC {L} c.
Arguments closed {L} c.
Arguments config {L} c.

(** Capacity of [cachePrepareTaskCh]: [make(chan *cachePrepareTask, 1024)]. *)
Definition prepareTaskChCap : nat := 1024.

Record World (L : Type) : Type := {
  engine : CacheEngine L;
  os : OS;
  now : Z;
  nextAddr : nat;
  trace : list Event
}.
Arguments engine {L} w.
Arguments os {L} w.
Arguments now {L} w.
Arguments nextAddr {L} w.
Arguments trace {L} w.

Section Engine.

Context {L : Type} {LRU : LruCache L} {X : Externals}.

Definition M (A : Type) : Type := World L -> Res A * World L.

Definition ret {A : Type} (a : A) : M A := fun w => (Ok a, w).

Definition bind {A B : Type} (m : M A) (k : A -> M B) : M B :=
  fun w =>
    match m w with
    | (Ok a, w') => k a w'
    | (Panicked r, w') => (Panicked r, w')
    end.

Notation "x <- m ;; k" := (bind m (fun x => k))
  (at level 61, m at next level, right associativity).
Notation "m ;;; k" := (bind m (fun _ => k))
  (at level 61, right associativity).

Definition panic {A : Type} (r : string) : M A := fun w => (Panicked r, w).

(** [defer cleanup] over [body]: [cleanup] runs when [body] returns and
    when it panics; a panic of [body] goes on after it. *)
Definition defer {A : Type} (cleanup : M unit) (body : M A) : M A :=
  fun w =>
    match body w with
    | (Ok a, w') =>
        match cleanup w' with
        | (Ok _, w'') => (Ok a, w'')
        | (Panicked r, w'') => (Panicked r, w'')
        end
    | (Panicked r, w') =>
        match cleanup w' with
        | (Ok _, w'') => (Panicked r, w'')
        | (Panicked r', w'') => (Panicked r', w'')
        end
    end.

(** [defer func() { if r := recover(); r != nil { handler } }()] over
    [body]: a panic of [body] ends there; the function then returns what
    its named results hold, which [handler] yields. *)
Definition deferRecover {A : Type} (handler : string -> M A) (body : M A)
  : M A :=
  fun w =>
    match body w with
    | (Ok a, w') => (Ok a, w')
    | (Panicked r, w') => handler r w'
    end.

Definition setEngine (w : World L) (e : CacheEngine L) : World L :=
  {| engine := e; os := os w; now := now w; nextAddr := nextAddr w;
     trace := trace w |}.

Definition setOS (w : World L) (o : OS) : World L :=
  {| engine := engine w; os := o; now := now w; nextAddr := nextAddr w;
     trace := trace w |}.

Definition setLru (e : CacheEngine L) (l : L) : CacheEngine L :=
  {| rootPath := rootPath e; cachePrepareTaskCh := cachePrepareTaskCh e;
     lruCache := l; closeC := closeC e; closed := closed e;
     config := config e |}.

Definition setTaskCh (e : CacheEngine L) (ch : list cachePrepareTask)
  : CacheEngine L :=
  {| rootPath := rootPath e; cachePrepareTaskCh := ch;
     lruCache := lruCache e; closeC := closeC e; closed := closed e;
     config := config e |}.

Definition setCloseC (e : CacheEngine L) (c : ChanState) : CacheEngine L :=
  {| rootPath := rootPath e; cachePrepareTaskCh := cachePrepareTaskCh e;
     lruCache := lruCache e; closeC := c; closed := closed e;
     config := config e |}.

Definition setClosed (e : CacheEngine L) (b : bool) : CacheEngine L :=
  {| rootPath := rootPath e; cachePrepareTaskCh := cachePrepareTaskCh e;
     lruCache := lruCache e; closeC := closeC e; closed := b;
     config := config e |}.

Definition emits (evs : list Event) (w : World L) : World L :=
  {| engine := engine w; os := os w; now := now w; nextAddr := nextAddr w;
     trace := trace w ++ evs |}.

Definition emit (ev : Event) : M unit := fun w => (Ok tt, emits [ev] w).

Definition getEngine : M (CacheEngine L) := fun w => (Ok (engine w), w).

Definition modEngine (f : CacheEngine L -> CacheEngine L) : M unit :=
  fun w => (Ok tt, setEngine w (f (engine w))).

(** A system call on the root path: its result, the new state, and its
    entry in the trace. *)
Definition syscall {A : Type} (ev : list Event) (f : OS -> A * OS) : M A :=
  fun w => let '(a, o) := f (os w) in (Ok a, emits ev (setOS w o)).

Definition query {A : Type} (f : OS -> A) : M A := fun w => (Ok (f (os w)), w).

(** *** Calls of the LRU *)

Definition callGet (key : string) : M (Value * error) :=
  fun w =>
    let '(r, l, evs) := lru_Get key (now w) (lruCache (engine w)) in
    (Ok r, emits (EvLruGet key :: evs) (setEngine w (setLru (engine w) l))).

Definition callPeek (key : string) : M (Value * bool) :=
  fun w =>
    (lru_Peek key (now w) (lruCache (engine w)), emits [EvLruPeek key] w).

Definition callSet (key : string) (v : Value) (ttl : Z) : M (Z * error) :=
  fun w =>
    let '(r, l, evs) := lru_Set key v ttl (now w) (lruCache (engine w)) in
    (Ok r,
     emits (EvLruSet key v ttl :: evs) (setEngine w (setLru (engine w) l))).

Definition callEvict (key : string) : M bool :=
  fun w =>
    let '(r, l, evs) := lru_Evict key (lruCache (engine w)) in
    (Ok r, emits (EvLruEvict key :: evs) (setEngine w (setLru (engine w) l))).

Definition callKeys : M (list string) :=
  fun w => (Ok (lru_Keys (lruCache (engine w))), emits [EvLruKeys] w).

Definition callClose : M error :=
  fun w =>
    let '(r, l, evs) := lru_Close (lruCache (engine w)) in
    (Ok r, emits (EvLruClose :: evs) (setEngine w (setLru (engine w) l))).

(** The type assertion of a value to a cache block pointer. *)
Definition asCacheBlock (v : Value) : M CacheBlock :=
  match v with
  | VBlock cb => ret cb
  | _ => panic "interface conversion: interface {} is not *CacheBlock"
  end.

(** [c.monitorFunc(volume, action, size)]. *)
Definition monitorFunc (volume : string) (action : proto.Action) (size : N)
  : M unit :=
  emit (EvMonitor volume action size).

(** *** Locks *)

(** [getCacheLock]: the index [crc & 3] into the four locks that
    [initCacheLock] allocates. *)
Definition getCacheLock (key : string) : Z := Z.land (Checksum key) 3.

(** *** The backing store *)

Definition createInitFile : M error :=
  c <- getEngine ;;
  syscall [EvCreateFile (rootPath c ++ "/" ++ InitFileName)]
          (CreateFile InitFileName).

Definition initFileExists : M bool :=
  err <- query (StatFile InitFileName) ;;
  match err with
  | None => ret true
  | Some _ => ret false
  end.

Definition initTmpfs : M error :=
  c <- getEngine ;;
  err <- syscall [EvMountTmpfs (rootPath c) (Total (config c))]
                 (tmpfs.MountTmpfs (Total (config c))) ;;
  match err with
  | Some e => ret (Some e)
  | None => createInitFile
  end.

(** [c.dropStore()], that is [tmpfs.Umount(c.rootPath)]. *)
Definition Umount : M error :=
  c <- getEngine ;;
  syscall [EvUmount (rootPath c)] tmpfs.Umount.

(** Go's [a && b] with [b] a call: [b] is evaluated when [a] holds. *)
Definition andAlso (a : bool) (b : M bool) : M bool :=
  if a then b else ret false.

Definition doMount : M error :=
  err <- query Stat ;;
  match err with
  | Some e => if IsNotExist e then initTmpfs else ret (Some e)
  | None =>
      r <- query tmpfs.IsMountPoint ;;
      let '(mounted, err) := r in
      match err with
      | Some e => ret (Some e)
      | None =>
          other <- andAlso mounted
                     (isTmpfs <- query tmpfs.IsTmpfs ;; ret (negb isTmpfs)) ;;
          if other
          then ret (Some (ErrNew "already mounted by another device"))
          else
            stale <- andAlso mounted initFileExists ;;
            if stale
            then
              err <- Umount ;;
              match err with
              | Some e => ret (Some e)
              | None => initTmpfs
              end
            else
              r <- query ReadDir ;;
              let '(fds, err) := r in
              match err with
              | Some e => ret (Some e)
              | None =>
                  if (0 <? List.length fds)%nat
                  then ret (Some (ErrNew "not empty dir"))
                  else initTmpfs
              end
      end
  end.

(** [NewCacheEngine].  [maxAlloc] stands for
    [int64(float64(totalSize) * maxUseRatio)], a floating-point product
    taken as computed.  The first component of the result tells whether
    the returned engine pointer is non-nil; the engine is the world's. *)
Definition NewCacheEngine (root : string) (totalSize maxAlloc capacity : Z)
  (expireTime : Z) : M (bool * error) :=
  fun w0 =>
    let cfg := {| MaxAlloc := maxAlloc; Total := totalSize;
                  Capacity := capacity |} in
    let s0 := {| rootPath := root;
                 cachePrepareTaskCh := [];
                 lruCache := lruCache (engine w0);
                 closeC := ChanNil; closed := false;
                 config := {| MaxAlloc := 0; Total := 0; Capacity := 0 |} |} in
    (err <- syscall [EvMkdirAll root] MkdirAll ;;
     match err with
     | Some e => ret (false, Some (ErrWrap "NewCacheEngine" e))
     | None =>
         modEngine (fun s =>
           {| rootPath := rootPath s; cachePrepareTaskCh := [];
              lruCache := NewCache (Capacity cfg) (MaxAlloc cfg) expireTime;
              closeC := closeC s; closed := closed s; config := cfg |}) ;;;
         err <- doMount ;;
         match err with
         | Some e => ret (true, Some e)
         | None =>
             modEngine (fun s => setClosed (setCloseC s ChanOpen) false) ;;;
             ret (true, None)
         end
     end) (setEngine w0 s0).

(** [close(c.closeC)]: closing a closed or a nil channel panics. *)
Definition closeCloseC : M unit :=
  c <- getEngine ;;
  match closeC c with
  | ChanOpen => modEngine (fun s => setCloseC s ChanClosed) ;;; emit EvChanClose
  | ChanClosed => panic "close of closed channel"
  | ChanNil => panic "close of nil channel"
  end.

(** [time.Sleep(d)]: the clock moves on by [d]. *)
Definition sleep (d : Z) : M unit :=
  fun w =>
    (Ok tt,
     {| engine := engine w; os := os w; now := now w + d;
        nextAddr := nextAddr w; trace := trace w ++ [EvSleep d] |}).

(** [Stop]. *)
Definition Stop : M error :=
  err <- callClose ;;
  match err with
  | Some e => ret (Some e)
  | None =>
      closeCloseC ;;;
      modEngine (fun s => setClosed s true) ;;;
      sleep (2 * Second) ;;;
      emit (EvLogInfo "CacheEngine stopped, umount tmpfs") ;;;
      Umount
  end.

(** *** Lookup *)

Definition GetCacheBlockForRead (volume : string) (inode offset : N)
  (version : N) (size : N) : M (option CacheBlock * error) :=
  let key := GenCacheBlockKey volume inode offset version in
  let lock := getCacheLock key in
  emit (EvRLock lock) ;;;
  defer (emit (EvRUnlock lock))
    (r <- callGet key ;;
     let '(value, err) := r in
     match err with
     | None =>
         block <- asCacheBlock value ;;
         ret (Some block, None)
     | Some e =>
         (if isCacheExpireError e
          then monitorFunc volume proto.ActionCacheExpire size
          else ret tt) ;;;
         ret (None, Some (ErrWrap ("GetCacheBlockForRead, key[" ++ key ++ "]") e))
     end).

(** [PeekCacheBlock].  The named results [block] and [err] hold their
    zero values at every point where the body can panic (the lock, the
    lookup, the type assertion), and the deferred function assigns
    neither: after a recovered panic the function returns them as they
    are. *)
Definition PeekCacheBlock (key : string) : M (option CacheBlock * error) :=
  deferRecover
    (fun r =>
       let warnMsg := "PeekCacheBlock occurred panic:" ++ r in
       emit (EvLogError warnMsg) ;;;
       emit (EvExporterWarning warnMsg) ;;;
       ret (None, None))
    (let lock := getCacheLock key in
     emit (EvRLock lock) ;;;
     defer (emit (EvRUnlock lock))
       (r <- callPeek key ;;
        let '(value, get) := r in
        if get
        then
          block <- asCacheBlock value ;;
          ret (Some block, None)
        else ret (None, Some (ErrNew "cache block peek failed")))).

(** *** Admission *)

(** [NewCacheBlock]: a fresh allocation. *)
Definition NewCacheBlock (root volume : string) (inode fixedOffset : N)
  (version : N) (allocSize : N) : M CacheBlock :=
  fun w =>
    let cb := {| blockAddr := nextAddr w; blockRoot := root;
                 blockVolume := volume; blockInode := inode;
                 blockOffset := fixedOffset; blockVersion := version;
                 blockAllocSize := allocSize |} in
    (Ok cb,
     {| engine := engine w; os := os w; now := now w;
        nextAddr := S (nextAddr w);
        trace := trace w ++ [EvNewCacheBlock cb] |}).

Definition callInitCacheStore (cb : CacheBlock) : M error :=
  syscall [EvInitCacheStore cb] (initCacheStore cb).

Definition createCacheBlock (volume : string) (inode fixedOffset : N)
  (version : N) (ttl : Z) (allocSize : N) : M (option CacheBlock * error) :=
  if (allocSize =? 0)%N
  then ret (None, Some (ErrNew "alloc size is zero"))
  else
    let key := GenCacheBlockKey volume inode fixedOffset version in
    let lock := getCacheLock key in
    emit (EvLock lock) ;;;
    r <- callPeek key ;;
    let '(value, get) := r in
    if get
    then
      emit (EvUnlock lock) ;;;
      block <- asCacheBlock value ;;
      ret (Some block, None)
    else
      c <- getEngine ;;
      block <- NewCacheBlock (rootPath c) volume inode fixedOffset version
                             allocSize ;;
      let ttl := if ttl <=? 0 then DefaultCacheTTLSec else ttl in
      r <- callSet key (VBlock block) (wrap64 (ttl * Second)) ;;
      let '(n, err) := r in
      emit (EvUnlock lock) ;;;
      match err with
      | Some e => ret (Some block, Some e)
      | None =>
          err <- callInitCacheStore block ;;
          (if 0 <? n
           then monitorFunc volume proto.ActionCacheEvict (uint64_of_int n)
           else ret tt) ;;;
          ret (Some block, err)
      end.

Definition deleteCacheBlock (key : string) : M unit :=
  callEvict key ;;; ret tt.

Definition CreateBlock (req : proto.CacheRequest)
  : M (option CacheBlock * error) :=
  if (List.length (proto.Sources req) =? 0)%nat
  then ret (None, Some (ErrNew "no source data"))
  else
    let '(alloc, err) := computeAllocSize (proto.Sources req) in
    match err with
    | Some e => ret (None, Some e)
    | None =>
        r <- createCacheBlock (proto.Volume req) (proto.Inode req)
               (proto.FixedFileOffset req) (proto.Version req)
               (proto.TTL req) alloc ;;
        let '(block, err) := r in
        match err with
        | Some e =>
            deleteCacheBlock
              (GenCacheBlockKey (proto.Volume req) (proto.Inode req)
                 (proto.FixedFileOffset req) (proto.Version req)) ;;;
            ret (None, Some e)
        | None => ret (block, None)
        end
    end.

(** *** The prepare queue *)

(** A send on a buffered channel can go on at once when the buffer has
    room; otherwise it would block. *)
Definition sendReady {A : Type} (cap : nat) (buf : list A) : bool :=
  (List.length buf <? cap)%nat.

(** [SendToPrepareTaskCh]: a [select] over the send with a [default]
    branch. *)
Definition SendToPrepareTaskCh (reqID : Z) (req : proto.CacheRequest)
  : M unit :=
  let t := {| request := req; reqID := reqID |} in
  c <- getEngine ;;
  if sendReady prepareTaskChCap (cachePrepareTaskCh c)
  then modEngine (fun s => setTaskCh s (cachePrepareTaskCh s ++ [t]))
  else emit (EvLogWarn
               "action[SendToPrepareTaskCh] cachePrepareTaskCh has been full").

Definition PrepareCache (reqID : Z) (req : proto.CacheRequest) : M error :=
  r <- CreateBlock req ;;
  let '(_, err) := r in
  match err with
  | Some e => ret (Some e)
  | None => SendToPrepareTaskCh reqID req ;;; ret None
  end.

(** *** Status *)

Definition usedSize : M Z :=
  r <- query Statfs ;;
  let '(stat, err) := r in
  match err with
  | Some e =>
      emit (EvLogError "compute used size of cache engine") ;;; ret 0
  | None => ret (wrap64 (wrap64 (Z.of_N (Blocks stat)) * wrap64 (Bsize stat)))
  end.

Definition Status : M proto.CacheStatus :=
  c <- getEngine ;;
  let lruStat := lru_Status (lruCache c) in
  used <- usedSize ;;
  ret {| proto.MaxAlloc := MaxAlloc (config c);
         proto.HasAlloc := fst lruStat;
         proto.Total := Total (config c);
         proto.Num := snd lruStat;
         proto.Evicts := lru_RecentEvict (lruCache c);
         proto.Capacity := Capacity (config c);
         proto.Used := used |}.

(** *** Eviction by volume *)

Fixpoint evictVolumeLoop (evictVol : string) (keys : list string)
  (count : Z) (failedKeys : list string) : M (Z * list string) :=
  match keys with
  | [] => ret (count, failedKeys)
  | k :: rest =>
      let vol := firstField "/" k in
      if String.eqb evictVol vol
      then
        emit (EvLock (getCacheLock k)) ;;;
        ok <- callEvict k ;;
        emit (EvUnlock (getCacheLock k)) ;;;
        evictVolumeLoop evictVol rest (count + 1)
          (if ok then failedKeys else failedKeys ++ [k])
      else evictVolumeLoop evictVol rest count failedKeys
  end.

Definition EvictVolumeCache (evictVol : string) : M (list string) :=
  keys <- callKeys ;;
  r <- evictVolumeLoop evictVol keys 0 [] ;;
  emit (EvLogWarn "action[EvictVolumeCache] evict volume finish") ;;;
  ret (snd r).

(** *** Observations *)

(** Successive calls of [createCacheBlock] for one key, each with its own
    time to live and allocated size; the results in order, and the world
    left by the last call (a panic does not stop the caller here). *)
Fixpoint createEach (volume : string) (inode fixedOffset version : N)
  (calls : list (Z * N)) (w : World L)
  : list (Res (option CacheBlock * error)) * World L :=
  match calls with
  | [] => ([], w)
  | (ttl, allocSize) :: rest =>
      let '(r, w1) :=
        createCacheBlock volume inode fixedOffset version ttl allocSize w in
      let '(rs, w2) := createEach volume inode fixedOffset version rest w1 in
      (r :: rs, w2)
  end.

(** *** Eviction by inode *)

Fixpoint evictInodeLoop (prefix : string) (keys : list string)
  (failedKeys : list string) : M (list string) :=
  match keys with
  | [] => ret failedKeys
  | k :: rest =>
      let pre := firstField "#" k in
      if String.eqb prefix pre
      then
        emit (EvLock (getCacheLock k)) ;;;
        ok <- callEvict k ;;
        emit (EvUnlock (getCacheLock k)) ;;;
        evictInodeLoop prefix rest
          (if ok then failedKeys else failedKeys ++ [k])
      else evictInodeLoop prefix rest failedKeys
  end.

(** [EvictInodeCache]; the prefix is [fmt.Sprintf("%v/%v", vol, inode)]. *)
Definition EvictInodeCache (vol : string) (inode : N) : M (list string) :=
  keys <- callKeys ;;
  let prefix := vol ++ "/" ++ FormatUint inode in
  failedKeys <- evictInodeLoop prefix keys [] ;;
  emit (EvLogWarn "action[EvictInodeCache] evict volume inode finish") ;;;
  ret failedKeys.

(** One key after the other handed to the LRU's [Evict]: the keys it
    did not remove, and the index it leaves. *)
Fixpoint evictEach (keys : list string) (l : L) : list string * L :=
  match keys with
  | [] => ([], l)
  | k :: rest =>
      let '(ok, l1, _) := lru_Evict k l in
      let '(failed, l2) := evictEach rest l1 in
      (if ok then failed else k :: failed, l2)
  end.

(** The trace of these evictions as [EvictVolumeCache] and
    [EvictInodeCache] make them: each under the exclusive lock of its
    key. *)
Fixpoint evictEachTrace (keys : list string) (l : L) : list Event :=
  match keys with
  | [] => []
  | k :: rest =>
      let '(_, l1, evs) := lru_Evict k l in
      (EvLock (getCacheLock k) :: EvLruEvict k :: evs
       ++ EvUnlock (getCacheLock k) :: evictEachTrace rest l1)%list
  end.

(** *** The prepare workers *)

(** What a worker of [startCachePrepareWorkers] does with a task it has
    received: it goes on with the loop, or it calls [InitOnce] on the
    block it looked up, with the sources of the request. *)
Inductive WorkerStep : Type :=
| WorkerContinue
| WorkerInitOnce (block : option CacheBlock)
                 (sources : list proto.DataSource).

(** The branch [case task := <-c.cachePrepareTaskCh] of a worker's
    loop, up to the call of [InitOnce]. *)
Definition handlePrepareTask (task : cachePrepareTask) : M WorkerStep :=
  r <- PeekCacheBlock
         (GenCacheBlockKey (proto.Volume (request task))
            (proto.Inode (request task))
            (proto.FixedFileOffset (request task))
            (proto.Version (request task))) ;;
  let '(block, err) := r in
  match err with
  | Some e =>
      emit (EvLogWarn
              "action[startCachePrepareWorkers] cache block not found") ;;;
      ret WorkerContinue
  | None => ret (WorkerInitOnce block (proto.Sources (request task)))
  end.

End Engine.

(** The number of cache blocks built along a trace. *)
Fixpoint creations (tr : list Event) : nat :=
  match tr with
  | [] => O
  | EvNewCacheBlock _ :: rest => S (creations rest)
  | _ :: rest => creations rest
  end.

(** ** An LRU index *)

Module lru.

(** Modelled from the spec: an entry of the index behind [NewCache]
    (file [lru.go]): key, value, byte weight (the allocated size of the
    block) and absolute expiry (insertion time plus time to live). *)
Record entry : Type := {
  eKey : string;
  eValue : Value;
  eWeight : Z;
  eExpire : Z
}.

(** Modelled from the spec: the index behind [NewCache], bounded in
    count and in bytes; entries are kept most recently used first. *)
Record fCache : Type := {
  capacity : Z;
  maxAlloc : Z;
  ttl : Z;
  items : list entry;
  hits : Z;
  misses : Z;
  recentEvict : Z;
  isClosed : bool
}.

Definition weightOf (v : Value) : Z :=
  match v with
  | VBlock cb => Z.of_N (blockAllocSize cb)
  | _ => 0
  end.

(** The destructor chain of a removed value: [onClose], then [onDelete]. *)
Definition destroy (v : Value) : list Event := [EvOnClose v; EvOnDelete v].

Definition destroyAll (es : list entry) : list Event :=
  flat_map (fun e => destroy (eValue e)) es.

Fixpoint find (key : string) (es : list entry) : option entry :=
  match es with
  | [] => None
  | e :: rest => if String.eqb (eKey e) key then Some e else find key rest
  end.

Fixpoint remove (key : string) (es : list entry) : list entry :=
  match es with
  | [] => []
  | e :: rest =>
      if String.eqb (eKey e) key then remove key rest
      else e :: remove key rest
  end.

Definition totalWeight (es : list entry) : Z :=
  fold_right (fun e acc => eWeight e + acc) 0 es.

Definition withItems (c : fCache) (es : list entry) : fCache :=
  {| capacity := capacity c; maxAlloc := maxAlloc c; ttl := ttl c;
     items := es; hits := hits c; misses := misses c;
     recentEvict := recentEvict c; isClosed := isClosed c |}.

Definition countHit (c : fCache) : fCache :=
  {| capacity := capacity c; maxAlloc := maxAlloc c; ttl := ttl c;
     items := items c; hits := hits c + 1; misses := misses c;
     recentEvict := recentEvict c; isClosed := isClosed c |}.

Definition countMiss (c : fCache) : fCache :=
  {| capacity := capacity c; maxAlloc := maxAlloc c; ttl := ttl c;
     items := items c; hits := hits c; misses := misses c + 1;
     recentEvict := recentEvict c; isClosed := isClosed c |}.

Definition addEvicted (c : fCache) (n : Z) : fCache :=
  {| capacity := capacity c; maxAlloc := maxAlloc c; ttl := ttl c;
     items := items c; hits := hits c; misses := misses c;
     recentEvict := recentEvict c + n; isClosed := isClosed c |}.

Definition close (c : fCache) : fCache :=
  {| capacity := capacity c; maxAlloc := maxAlloc c; ttl := ttl c;
     items := []; hits := hits c; misses := misses c;
     recentEvict := recentEvict c; isClosed := true |}.

(** Eviction from the tail while the count or the weight is over its
    bound; at most one round per entry. *)
Fixpoint evictTail (fuel : nat) (cap maxb : Z) (es evicted : list entry)
  : list entry * list entry :=
  match fuel with
  | O => (es, evicted)
  | S fuel' =>
      if (cap <? Z.of_nat (List.length es)) || (maxb <? totalWeight es)
      then
        match List.rev es with
        | [] => (es, evicted)
        | victim :: _ =>
            evictTail fuel' cap maxb (removelast es) (evicted ++ [victim])
        end
      else (es, evicted)
  end.

(** Modelled from the spec: [NewCache(capacity, maxAlloc, expire, ...)]. *)
Definition New (cap maxb expire : Z) : fCache :=
  {| capacity := cap; maxAlloc := maxb; ttl := expire; items := [];
     hits := 0; misses := 0; recentEvict := 0; isClosed := false |}.

(** Modelled from the spec: [get]: a present entry that has not expired
    moves to the front and is returned; an expired one is removed, its
    destructors run, and the answer is [CacheExpireError]; hits and
    misses are counted. *)
Definition Get (key : string) (now : Z) (c : fCache)
  : (Value * error) * fCache * list Event :=
  if isClosed c then ((VNil, Some (ErrNew "closed")), c, [])
  else
    match find key (items c) with
    | Some e =>
        if now <? eExpire e
        then ((eValue e, None),
              countHit (withItems c (e :: remove key (items c))), [])
        else ((VNil, Some CacheExpireError),
              countMiss (withItems c (remove key (items c))),
              destroy (eValue e))
    | None => ((VNil, Some (ErrNew "not found")), countMiss c, [])
    end.

(** Modelled from the spec: [peek]: the presence test of [get], without
    touching order or counters and without evicting an expired entry. *)
Definition Peek (key : string) (now : Z) (c : fCache) : Res (Value * bool) :=
  match find key (items c) with
  | Some e => if now <? eExpire e then Ok (eValue e, true) else Ok (VNil, false)
  | None => Ok (VNil, false)
  end.

(** Modelled from the spec: [set] (the method [Set]): refused when the
    weight exceeds the byte budget, evicting nothing; otherwise the
    entry replaces one of the same key (whose destructors run), goes to
    the front, and the tail is evicted while a bound is exceeded; the
    result is the weight evicted. *)
Definition Put (key : string) (v : Value) (d : Z) (now : Z) (c : fCache)
  : (Z * error) * fCache * list Event :=
  if isClosed c then ((0, Some (ErrNew "closed")), c, [])
  else if maxAlloc c <? weightOf v
  then ((0, Some (ErrNew "over weight")), c, [])
  else
    let replaced :=
      match find key (items c) with
      | Some e => destroy (eValue e)
      | None => []
      end in
    let e := {| eKey := key; eValue := v; eWeight := weightOf v;
                eExpire := now + d |} in
    let es := e :: remove key (items c) in
    let '(kept, evicted) :=
      evictTail (List.length es) (capacity c) (maxAlloc c) es [] in
    ((totalWeight evicted, None),
     addEvicted (withItems c kept) (totalWeight evicted),
     (replaced ++ destroyAll evicted)%list).

(** Modelled from the spec: [evict]: remove if present, run the
    destructors, tell whether an entry was removed. *)
Definition Evict (key : string) (c : fCache) : bool * fCache * list Event :=
  match find key (items c) with
  | Some e => (true, withItems c (remove key (items c)), destroy (eValue e))
  | None => (false, c, [])
  end.

(** Modelled from the spec: [evict_all]. *)
Definition EvictAll (c : fCache) : fCache * list Event :=
  (withItems c [], destroyAll (items c)).

(** Modelled from the spec: [keys], most recently used first. *)
Definition Keys (c : fCache) : list string := map eKey (items c).

(** Modelled from the spec: [status]: bytes in use and entry count. *)
Definition Stats (c : fCache) : Z * Z :=
  (totalWeight (items c), Z.of_nat (List.length (items c))).

(** Modelled from the spec: [close]: [evict_all], then every further
    operation is refused. *)
Definition Close (c : fCache) : error * fCache * list Event :=
  (None, close c, destroyAll (items c)).

End lru.

#[export] Instance fCacheLru : LruCache lru.fCache := {
  NewCache := lru.New;
  lru_Get := lru.Get;
  lru_Peek := lru.Peek;
  lru_Set := lru.Put;
  lru_Evict := lru.Evict;
  lru_EvictAll := lru.EvictAll;
  lru_Keys := lru.Keys;
  lru_Status := lru.Stats;
  lru_RecentEvict := lru.recentEvict;
  lru_Close := lru.Close
}.

(** An implementation of the interface whose lookup panics; every other
    method is the index's. *)
Definition panickingLru : LruCache lru.fCache := {|
  NewCache := lru.New;
  lru_Get := lru.Get;
  lru_Peek := fun _ _ _ => Panicked "invalid memory address";
  lru_Set := lru.Put;
  lru_Evict := lru.Evict;
  lru_EvictAll := lru.EvictAll;
  lru_Keys := lru.Keys;
  lru_Status := lru.Stats;
  lru_RecentEvict := lru.recentEvict;
  lru_Close := lru.Close
|}.

(** ** Sample instances *)

(** One choice of the externals, for running the engine on examples: a
    checksum by length, the allocated size as the sum of the sources'
    sizes, a store initialisation that succeeds, five minutes as the
    default time to live. *)
Definition sampleExternals : Externals := {|
  Checksum := fun s => Z.of_nat (String.length s);
  computeAllocSize := fun srcs =>
    (fold_right (fun s acc => (proto.Size_ s + acc)%N) 0%N srcs, None);
  initCacheStore := fun _ o => (None, o);
  DefaultCacheTTLSec := 300;
  InitFileName := ".init"
|}.

Definition noStat : Statfs_t := {| Blocks := 0; Bfree := 0; Bsize := 4096 |}.

(** A machine on which nothing fails for reasons of its own. *)
Definition machine (r : RootState) : OS :=
  {| root := r; rootStat := noStat; failing := fun _ => false |}.

Definition zeroEngine (root : string) (l : lru.fCache)
  : CacheEngine lru.fCache :=
  {| rootPath := root; cachePrepareTaskCh := []; lruCache := l;
     closeC := ChanNil; closed := false;
     config := {| MaxAlloc := 0; Total := 0; Capacity := 0 |} |}.

Definition worldOn (o : OS) : World lru.fCache :=
  {| engine := zeroEngine "/cfs/tmpfs" (lru.New 0 0 0); os := o;
     now := 0; nextAddr := 0; trace := [] |}.

Definition MiB : Z := 1048576.

(** The world after [NewCacheEngine("/cfs/tmpfs", 1 MiB, 0.9 of it, 2
    entries, one hour)] on a machine where the root path is new. *)
Definition startedWorld : World lru.fCache :=
  snd (NewCacheEngine (X := sampleExternals) "/cfs/tmpfs" MiB 943718 2
         (3600 * Second) (worldOn (machine Absent))).

Definition sampleSource (size : N) : proto.DataSource :=
  {| proto.PartitionID := 1; proto.ExtentID := 1; proto.ExtentOffset := 0;
     proto.SizeInBlock := size; proto.Size_ := size; proto.Hosts := [] |}.

Definition sampleRequest (ttl : Z) (sources : list proto.DataSource)
  : proto.CacheRequest :=
  {| proto.Volume := "vol"; proto.Inode := 1; proto.FixedFileOffset := 0;
     proto.Version := 1; proto.TTL := ttl; proto.Sources := sources |}.
Definition sampleBlock : CacheBlock :=
  {| blockAddr := 0; blockRoot := "/cfs/tmpfs"; blockVolume := "vol";
     blockInode := 1; blockOffset := 0; blockVersion := 1;
     blockAllocSize := 65536 |}.

(** The world after one admission: [CreateBlock] of a request for 64 KiB
    that names no time to live. *)
Definition admittedWorld : World lru.fCache :=
  snd (CreateBlock (X := sampleExternals)
         (sampleRequest 0 [sampleSource 65536]) startedWorld).

(** A world at a later time. *)
Definition atTime (w : World lru.fCache) (t : Z) : World lru.fCache :=
  {| engine := engine w; os := os w; now := t; nextAddr := nextAddr w;
     trace := trace w |}.

(** The started engine with a full prepare queue. *)
Definition fullQueueWorld : World lru.fCache :=
  setEngine startedWorld
    (setTaskCh (engine startedWorld)
       (repeat {| request := sampleRequest 0 [sampleSource 4096];
                  reqID := 0 |} prepareTaskChCap)).

(** [NewCacheEngine("/cfs/tmpfs", 1 MiB, ...)] on a machine whose root
    path is in the given state. *)
Definition startOn (r : RootState) : Res (bool * error) * World lru.fCache :=
  NewCacheEngine (X := sampleExternals) "/cfs/tmpfs" MiB 943718 2
    (3600 * Second) (worldOn (machine r)).

(** The backing store as the engine prepares it: a fresh tmpfs of 1 MiB
    that holds the init file. *)
Definition sampleStore : Mount :=
  {| mType := Tmpfs; mStat := mStat (tmpfs.fresh MiB);
     mEntries := [".init"] |}.

(** A backing store left by an earlier process: the init file and a
    block file. *)
Definition staleStore : Mount :=
  {| mType := Tmpfs; mStat := mStat (tmpfs.fresh MiB);
     mEntries := [".init"; "vol_1_0_1"] |}.

Definition otherMount : Mount :=
  {| mType := OtherFs; mStat := noStat; mEntries := [] |}.

(** A tmpfs that holds a block file and no init file. *)
Definition unmarkedStore : Mount :=
  {| mType := Tmpfs; mStat := mStat (tmpfs.fresh MiB);
     mEntries := ["vol_1_0_1"] |}.

(** A machine on which reading the directory and mounting fail. *)
Definition faultyMachine (r : RootState) : OS :=
  {| root := r; rootStat := noStat;
     failing := fun sc =>
       match sc with
       | ScReadDir | ScMountTmpfs => true
       | _ => false
       end |}.

(** The sample externals with a store initialisation that fails. *)
Definition brokenStoreExternals : Externals := {|
  Checksum := fun s => Z.of_nat (String.length s);
  computeAllocSize := fun srcs =>
    (fold_right (fun s acc => (proto.Size_ s + acc)%N) 0%N srcs, None);
  initCacheStore := fun _ o => (Some (ErrNew "no space left on device"), o);
  DefaultCacheTTLSec := 300;
  InitFileName := ".init"
|}.

(** A request for 4 KiB at the start of inode 1 of a volume. *)
Definition requestOn (volume : string) : proto.CacheRequest :=
  {| proto.Volume := volume; proto.Inode := 1; proto.FixedFileOffset := 0;
     proto.Version := 1; proto.TTL := 0;
     proto.Sources := [sampleSource 4096] |}.

(** The started engine after the admission of one block of a volume. *)
Definition worldWith (volume : string) : World lru.fCache :=
  snd (CreateBlock (X := sampleExternals) (requestOn volume) startedWorld).

(** ** Block keys: facts *)

Example GenCacheBlockKey_sample :
  GenCacheBlockKey "vol" 12 4096 3 = "vol/12#4096#3".
Proof. reflexivity. Qed.

Example FormatUint_zero : FormatUint 0 = "0".
Proof. reflexivity. Qed.

Example firstField_sample : firstField "/" "vol/12#4096#3" = "vol".
Proof. reflexivity. Qed.

(** *** Facts about decimal numerals and separators *)

Lemma string_of_uint_allDigits (d : uint) :
  allDigits (NilEmpty.string_of_uint d) = true.
Proof. induction d; simpl; auto. Qed.

Lemma FormatUint_allDigits (n : N) : allDigits (FormatUint n) = true.
Proof. apply string_of_uint_allDigits. Qed.

Lemma FormatUint_inj (n m : N) : FormatUint n = FormatUint m -> n = m.
Proof.
  unfold FormatUint. intros E.
  apply Unsigned.to_uint_inj.
  assert (S : Some (N.to_uint n) = Some (N.to_uint m)).
  { rewrite <- (NilEmpty.usu (N.to_uint n)), <- (NilEmpty.usu (N.to_uint m)).
    now rewrite E. }
  now injection S.
Qed.

Lemma allDigits_occurs (c : ascii) (s : string) :
  isDigit c = false -> allDigits s = true -> occurs c s = false.
Proof.
  intros Hc. induction s as [|d s IH]; simpl; [reflexivity|].
  intros H. apply andb_true_iff in H. destruct H as [Hd Hs].
  rewrite (IH Hs), orb_false_r.
  destruct (Ascii.eqb_spec d c) as [->|]; [congruence | reflexivity].
Qed.

Lemma FormatUint_no_hash (n : N) : occurs "#" (FormatUint n) = false.
Proof.
  apply allDigits_occurs; [reflexivity | apply FormatUint_allDigits].
Qed.

(** Two texts cut at the first occurrence of a separator agree on both
    sides of the cut. *)
Lemma split_at_sep (c : ascii) (a a' r r' : string) :
  occurs c a = false -> occurs c a' = false ->
  a ++ String c r = a' ++ String c r' -> a = a' /\ r = r'.
Proof.
  revert a'. induction a as [|x a IH]; intros [|y a'] Ha Ha' E; simpl in *.
  - injection E as <-. auto.
  - injection E as E1 E2. subst y.
    rewrite Ascii.eqb_refl in Ha'. discriminate.
  - injection E as E1 E2. subst x.
    rewrite Ascii.eqb_refl in Ha. discriminate.
  - injection E as E1 E2. subst y.
    apply orb_false_iff in Ha. apply orb_false_iff in Ha'.
    destruct (IH a' (proj2 Ha) (proj2 Ha') E2) as [-> ->]. auto.
Qed.

Lemma firstField_app (c : ascii) (a r : string) :
  occurs c a = false -> firstField c (a ++ String c r) = a.
Proof.
  induction a as [|x a IH]; simpl.
  - now rewrite Ascii.eqb_refl.
  - intros H. apply orb_false_iff in H. destruct H as [Hx Ha].
    rewrite Hx. now rewrite (IH Ha).
Qed.

Lemma firstField_GenCacheBlockKey (v : string) (i o ver : N) :
  occurs "/" v = false -> firstField "/" (GenCacheBlockKey v i o ver) = v.
Proof. intros Hv. unfold GenCacheBlockKey. now apply firstField_app. Qed.

(** C10: on volumes without a slash, [GenCacheBlockKey] is injective
    (two tuples with the same key are the same tuple, so distinct tuples
    get distinct keys), and the text of a key before its first slash,
    which is what [EvictVolumeCache] compares with the volume to evict
    ([strings.Split(k, "/")[0]]), is the volume. *)
Theorem GenCacheBlockKey_injective :
  forall (v v' : string) (i i' o o' ver ver' : N),
    occurs "/" v = false -> occurs "/" v' = false ->
    (GenCacheBlockKey v i o ver = GenCacheBlockKey v' i' o' ver' ->
     v = v' /\ i = i' /\ o = o' /\ ver = ver')
    /\ ((v, i, o, ver) <> (v', i', o', ver') ->
        GenCacheBlockKey v i o ver <> GenCacheBlockKey v' i' o' ver')
    /\ firstField "/" (GenCacheBlockKey v i o ver) = v.
Proof.
  intros v v' i i' o o' ver ver' Hv Hv'.
  assert (Inj : GenCacheBlockKey v i o ver = GenCacheBlockKey v' i' o' ver' ->
                v = v' /\ i = i' /\ o = o' /\ ver = ver').
  { unfold GenCacheBlockKey. intros E.
    apply (split_at_sep "/") in E; auto. destruct E as [-> E].
    apply (split_at_sep "#") in E; auto using FormatUint_no_hash.
    destruct E as [Ei E].
    apply (split_at_sep "#") in E; auto using FormatUint_no_hash.
    destruct E as [Eo Ev].
    repeat split; auto using FormatUint_inj. }
  split; [exact Inj|]. split.
  - intros Hne E. apply Hne. destruct (Inj E) as (-> & -> & -> & ->).
    reflexivity.
  - now apply firstField_GenCacheBlockKey.
Qed.

Lemma GenCacheBlockKey_injective_witness :
  (GenCacheBlockKey "vol" 1 0 2 = GenCacheBlockKey "vol" 1 0 2 ->
   "vol" = "vol" /\ 1%N = 1%N /\ 0%N = 0%N /\ 2%N = 2%N)
  /\ (("vol", 1%N, 0%N, 2%N) <> ("vol", 1%N, 4096%N, 2%N) ->
      GenCacheBlockKey "vol" 1 0 2 <> GenCacheBlockKey "vol" 1 4096 2)
  /\ firstField "/" (GenCacheBlockKey "vol" 1 0 2) = "vol".
Proof.
  split.
  - apply (GenCacheBlockKey_injective "vol" "vol" 1 1 0 0 2 2);
      reflexivity.
  - apply (GenCacheBlockKey_injective "vol" "vol" 1 1 0 4096 2 2);
      reflexivity.
Defined.

(** The test of [EvictVolumeCache] on a key built from a volume without
    a slash: the key is chosen exactly when the volume is the one to
    evict. *)
Lemma EvictVolumeCache_filter (evictVol v : string) (i o ver : N) :
  occurs "/" v = false ->
  String.eqb evictVol (firstField "/" (GenCacheBlockKey v i o ver)) = true
  <-> evictVol = v.
Proof.
  intros Hv. rewrite (firstField_GenCacheBlockKey v i o ver Hv).
  apply String.eqb_eq.
Qed.

(** With a slash in the volume the test reads a shorter name. *)
Example firstField_of_volume_with_slash :
  firstField "/" (GenCacheBlockKey "a/b" 1 0 1) = "a".
Proof. reflexivity. Qed.

(** ** The engine: facts *)

Section EngineFacts.

Context {L : Type} {LRU : LruCache L} {X : Externals}.

(** Unfolds the monad's operations in the goal. *)
Ltac run :=
  unfold bind, ret, emit, panic, defer, deferRecover, getEngine, modEngine,
    syscall, query, monitorFunc, callGet, callPeek, callSet, callEvict,
    callKeys, callClose, asCacheBlock; simpl.

(** C8: [CreateBlock] fails on a request without sources, and
    [createCacheBlock] fails on an allocated size of zero; either call
    returns no block and an error and leaves the world as it found it: the
    LRU is not called, no block is built, nothing is registered. *)
Theorem rejected_admission_changes_nothing :
  (forall (w : World L) (req : proto.CacheRequest),
      proto.Sources req = [] ->
      CreateBlock req w = (Ok (None, Some (ErrNew "no source data")), w))
  /\ (forall (w : World L) (volume : string) (inode fixedOffset version : N)
             (ttl : Z),
         createCacheBlock volume inode fixedOffset version ttl 0 w
         = (Ok (None, Some (ErrNew "alloc size is zero")), w)).
Proof.
  split.
  - intros w req Hs. unfold CreateBlock. rewrite Hs. reflexivity.
  - intros. reflexivity.
Qed.

(** X11, beside the two rejections above: when the size computed from a
    request's sources is zero, [CreateBlock] gets the error of
    [createCacheBlock] and, as on every error of it, evicts the request's
    key; no block is built and [Set] is not called. *)
Lemma CreateBlock_zero_size_evicts_key :
  forall (w : World L) (req : proto.CacheRequest),
    proto.Sources req <> [] ->
    computeAllocSize (proto.Sources req) = (0%N, None) ->
    CreateBlock req w
    = (Ok (None, Some (ErrNew "alloc size is zero")),
       let key := GenCacheBlockKey (proto.Volume req) (proto.Inode req)
                    (proto.FixedFileOffset req) (proto.Version req) in
       let '(_, l, evs) := lru_Evict key (lruCache (engine w)) in
       emits (EvLruEvict key :: evs) (setEngine w (setLru (engine w) l))).
Proof.
  intros w req Hs Hc. unfold CreateBlock.
  destruct (proto.Sources req) as [|src rest] eqn:E; [congruence|].
  simpl. rewrite Hc. unfold deleteCacheBlock. run.
  destruct (lru_Evict _ _) as [[ok l] evs]. reflexivity.
Qed.

(** C1: when the lookup inside [PeekCacheBlock] panics, the panic is
    recovered and logged, and the call returns a nil block with a nil
    error: the deferred function does not set [err]. *)
Theorem PeekCacheBlock_panic_yields_nil_nil :
  forall (w : World L) (key r : string),
    lru_Peek key (now w) (lruCache (engine w)) = Panicked r ->
    PeekCacheBlock key w
    = (Ok (None, None),
       emits [EvRLock (getCacheLock key); EvLruPeek key;
              EvRUnlock (getCacheLock key);
              EvLogError ("PeekCacheBlock occurred panic:" ++ r);
              EvExporterWarning ("PeekCacheBlock occurred panic:" ++ r)] w).
Proof.
  intros w key r H. unfold PeekCacheBlock. run. rewrite H. simpl.
  unfold emits; simpl. now rewrite <- !app_assoc.
Qed.


(** A miss of the lookup is reported as an error: the path beside the
    recovered panic. *)
Lemma PeekCacheBlock_miss_returns_error :
  forall (w : World L) (key : string) (v : Value),
    lru_Peek key (now w) (lruCache (engine w)) = Ok (v, false) ->
    PeekCacheBlock key w
    = (Ok (None, Some (ErrNew "cache block peek failed")),
       emits [EvRLock (getCacheLock key); EvLruPeek key;
              EvRUnlock (getCacheLock key)] w).
Proof.
  intros w key v H. unfold PeekCacheBlock. run. rewrite H. simpl.
  unfold emits; simpl. now rewrite <- !app_assoc.
Qed.

(** A value that is no cache block makes the type assertion panic, with
    the same outcome as a panic of the lookup itself. *)
Lemma PeekCacheBlock_bad_value_yields_nil_nil :
  forall (w : World L) (key : string) (tag : nat),
    lru_Peek key (now w) (lruCache (engine w)) = Ok (VOther tag, true) ->
    fst (PeekCacheBlock key w) = Ok (None, None).
Proof.
  intros w key tag H. unfold PeekCacheBlock. run. rewrite H. reflexivity.
Qed.

(** [SendToPrepareTaskCh] returns in every world: the send goes on when
    the buffer has room, and the [default] branch is taken when it would
    block. *)
Lemma SendToPrepareTaskCh_returns :
  forall (w : World L) (reqID : Z) (req : proto.CacheRequest),
    SendToPrepareTaskCh reqID req w
    = (Ok tt,
       if (List.length (cachePrepareTaskCh (engine w)) <? prepareTaskChCap)%nat
       then setEngine w
              (setTaskCh (engine w)
                 (cachePrepareTaskCh (engine w)
                    ++ [{| request := req; reqID := reqID |}]))
       else emits
              [EvLogWarn
                 "action[SendToPrepareTaskCh] cachePrepareTaskCh has been full"]
              w).
Proof.
  intros w reqID req. unfold SendToPrepareTaskCh, sendReady. run.
  destruct (List.length (cachePrepareTaskCh (engine w)) <? prepareTaskChCap)%nat;
    reflexivity.
Qed.

(** C2: when [CreateBlock] admits the request, [PrepareCache] returns a
    nil error whatever the state of the queue.  [SendToPrepareTaskCh]
    always returns: with room in the buffer the task is appended, and with
    a full buffer the task is dropped, a warning is logged, and nothing
    reaches the caller. *)
Theorem PrepareCache_admitted_returns_success :
  forall (w w1 : World L) (reqID : Z) (req : proto.CacheRequest)
         (block : option CacheBlock),
    CreateBlock req w = (Ok (block, None), w1) ->
    SendToPrepareTaskCh reqID req w1
    = (Ok tt,
       if (List.length (cachePrepareTaskCh (engine w1)) <? prepareTaskChCap)%nat
       then setEngine w1
              (setTaskCh (engine w1)
                 (cachePrepareTaskCh (engine w1)
                    ++ [{| request := req; reqID := reqID |}]))
       else emits
              [EvLogWarn
                 "action[SendToPrepareTaskCh] cachePrepareTaskCh has been full"]
              w1)
    /\ PrepareCache reqID req w
       = (Ok None, snd (SendToPrepareTaskCh reqID req w1))
    /\ ((prepareTaskChCap <= List.length (cachePrepareTaskCh (engine w1)))%nat ->
        PrepareCache reqID req w
        = (Ok None,
           emits
             [EvLogWarn
                "action[SendToPrepareTaskCh] cachePrepareTaskCh has been full"]
             w1)).
Proof.
  intros w w1 reqID req block H.
  pose proof (SendToPrepareTaskCh_returns w1 reqID req) as S.
  assert (P : PrepareCache reqID req w
              = (Ok None, snd (SendToPrepareTaskCh reqID req w1))).
  { unfold PrepareCache at 1. unfold bind at 1. rewrite H.
    unfold bind, ret. rewrite S. reflexivity. }
  split; [exact S|]. split; [exact P|].
  intros Hfull. rewrite P, S.
  apply Nat.ltb_ge in Hfull. rewrite Hfull. reflexivity.
Qed.

(** C5: [GetCacheBlockForRead] holds the key's lock in shared mode around
    one [Get] of the LRU.  When [Get] reports [CacheExpireError] the
    monitor is called once, with the volume, [ActionCacheExpire] and the
    requested size, and the call returns an error; on any other error of
    [Get] (a missing entry) it returns an error and the monitor is not
    called; on a hit it returns the block that [Get] returned, a nil
    error, and the monitor is not called. *)
Theorem GetCacheBlockForRead_outcomes :
  forall (w : World L) (volume : string) (inode offset version size : N)
         (value : Value) (err : error) (l : L) (evs : list Event),
    lru_Get (GenCacheBlockKey volume inode offset version) (now w)
            (lruCache (engine w)) = ((value, err), l, evs) ->
    let key := GenCacheBlockKey volume inode offset version in
    let lock := getCacheLock key in
    let w1 := setEngine w (setLru (engine w) l) in
    (err = Some CacheExpireError ->
     GetCacheBlockForRead volume inode offset version size w
     = (Ok (None,
            Some (ErrWrap ("GetCacheBlockForRead, key[" ++ key ++ "]")
                    CacheExpireError)),
        emits ([EvRLock lock; EvLruGet key] ++ evs
               ++ [EvMonitor volume proto.ActionCacheExpire size;
                   EvRUnlock lock]) w1))
    /\ (forall e : Err,
           err = Some e -> e <> CacheExpireError ->
           GetCacheBlockForRead volume inode offset version size w
           = (Ok (None,
                  Some (ErrWrap ("GetCacheBlockForRead, key[" ++ key ++ "]") e)),
              emits ([EvRLock lock; EvLruGet key] ++ evs ++ [EvRUnlock lock])
                    w1))
    /\ (forall cb : CacheBlock,
           err = None -> value = VBlock cb ->
           GetCacheBlockForRead volume inode offset version size w
           = (Ok (Some cb, None),
              emits ([EvRLock lock; EvLruGet key] ++ evs ++ [EvRUnlock lock])
                    w1)).
Proof.
  intros w volume inode offset version size value err l evs H key lock w1.
  repeat split.
  - intros ->. unfold GetCacheBlockForRead. run. rewrite H. simpl.
    unfold emits, w1; simpl. f_equal. f_equal.
    now rewrite <- !app_assoc.
  - intros e -> Hne. unfold GetCacheBlockForRead. run. rewrite H. simpl.
    assert (isCacheExpireError e = false) as ->
      by (destruct e; simpl; congruence).
    simpl. unfold emits, w1; simpl. f_equal. f_equal.
    now rewrite <- !app_assoc.
  - intros cb -> ->. unfold GetCacheBlockForRead. run. rewrite H. simpl.
    unfold emits, w1; simpl. f_equal. f_equal.
    now rewrite <- !app_assoc.
Qed.

Lemma creations_app (a b : list Event) :
  creations (a ++ b) = (creations a + creations b)%nat.
Proof.
  induction a as [|ev a IH]; simpl; [reflexivity|].
  destruct ev; simpl; auto.
Qed.

(** A call of [createCacheBlock] that finds a block under the key. *)
Lemma createCacheBlock_hit :
  forall (w : World L) (volume : string) (inode fixedOffset version : N)
         (ttl : Z) (allocSize : N) (cb : CacheBlock),
    allocSize <> 0%N ->
    lru_Peek (GenCacheBlockKey volume inode fixedOffset version) (now w)
             (lruCache (engine w)) = Ok (VBlock cb, true) ->
    createCacheBlock volume inode fixedOffset version ttl allocSize w
    = (Ok (Some cb, None),
       emits [EvLock (getCacheLock
                        (GenCacheBlockKey volume inode fixedOffset version));
              EvLruPeek (GenCacheBlockKey volume inode fixedOffset version);
              EvUnlock (getCacheLock
                          (GenCacheBlockKey volume inode fixedOffset version))]
             w).
Proof.
  intros w volume inode fixedOffset version ttl allocSize cb Hz H.
  unfold createCacheBlock.
  apply N.eqb_neq in Hz. rewrite Hz. run. rewrite H. simpl.
  unfold emits; simpl. now rewrite <- !app_assoc.
Qed.

Lemma createEach_hits :
  forall (volume : string) (inode fixedOffset version : N) (cb : CacheBlock)
         (calls : list (Z * N)) (w : World L),
    Forall (fun c => snd c <> 0%N) calls ->
    lru_Peek (GenCacheBlockKey volume inode fixedOffset version) (now w)
             (lruCache (engine w)) = Ok (VBlock cb, true) ->
    Forall (fun r => r = Ok (Some cb, None))
           (fst (createEach volume inode fixedOffset version calls w))
    /\ engine (snd (createEach volume inode fixedOffset version calls w))
       = engine w
    /\ nextAddr (snd (createEach volume inode fixedOffset version calls w))
       = nextAddr w
    /\ creations
         (trace (snd (createEach volume inode fixedOffset version calls w)))
       = creations (trace w).
Proof.
  intros volume inode fixedOffset version cb calls.
  induction calls as [|[ttl allocSize] calls IH]; intros w Hall H; simpl.
  - auto.
  - inversion Hall as [|c cs Hc Hcs]; subst. simpl in Hc.
    rewrite (createCacheBlock_hit w volume inode fixedOffset version ttl
               allocSize cb Hc H).
    match goal with
    | |- context [createEach _ _ _ _ calls ?w1] =>
        specialize (IH w1 Hcs H); destruct (createEach _ _ _ _ calls w1)
          as [rs w2]
    end.
    simpl in *. destruct IH as (Hr & He & Hn & Hc').
    repeat split; auto.
    rewrite Hc', creations_app. simpl. lia.
Qed.

(** C3 (as amended): when a block is present under the key and the
    allocated size is not zero, [createCacheBlock] returns that block
    and a nil error, having taken and released the key's lock around one
    [Peek]: it builds no block, calls neither [Set] nor
    [initCacheStore], and leaves the engine as it was.  Hence any number
    of further such calls for the key return the same block and build
    none. *)
Theorem createCacheBlock_returns_present_block :
  forall (w : World L) (volume : string) (inode fixedOffset version : N)
         (cb : CacheBlock),
    lru_Peek (GenCacheBlockKey volume inode fixedOffset version) (now w)
             (lruCache (engine w)) = Ok (VBlock cb, true) ->
    (forall (ttl : Z) (allocSize : N),
        allocSize <> 0%N ->
        createCacheBlock volume inode fixedOffset version ttl allocSize w
        = (Ok (Some cb, None),
           emits [EvLock (getCacheLock
                            (GenCacheBlockKey volume inode fixedOffset version));
                  EvLruPeek (GenCacheBlockKey volume inode fixedOffset version);
                  EvUnlock (getCacheLock
                              (GenCacheBlockKey volume inode fixedOffset
                                 version))]
                 w))
    /\ (forall calls : list (Z * N),
           Forall (fun c => snd c <> 0%N) calls ->
           Forall (fun r => r = Ok (Some cb, None))
                  (fst (createEach volume inode fixedOffset version calls w))
           /\ engine (snd (createEach volume inode fixedOffset version calls w))
              = engine w
           /\ nextAddr
                (snd (createEach volume inode fixedOffset version calls w))
              = nextAddr w
           /\ creations
                (trace
                   (snd (createEach volume inode fixedOffset version calls w)))
              = creations (trace w)).
Proof.
  intros w volume inode fixedOffset version cb H. split.
  - intros ttl allocSize Hz. now apply createCacheBlock_hit.
  - intros calls Hall. now apply createEach_hits.
Qed.

Lemma wrap64_small (z : Z) : - 2 ^ 63 <= z < 2 ^ 63 -> wrap64 z = z.
Proof. intros H. unfold wrap64. rewrite Z.mod_small; lia. Qed.

(** C7 (as amended): a call of [createCacheBlock] that finds no block
    under the key builds one and hands it to the LRU's [Set] with
    [proto.DefaultCacheTTLSec] seconds when the requested time to live is
    zero or negative, and with the requested number of seconds when it is
    positive; the duration is the [int64] product with [time.Second]
    (exact up to 9223372036 seconds).  The expire duration given to
    [NewCacheEngine] plays no part. *)
Theorem createCacheBlock_ttl_of_new_entry :
  forall (w : World L) (volume : string) (inode fixedOffset version : N)
         (ttl : Z) (allocSize : N) (v : Value),
    allocSize <> 0%N ->
    lru_Peek (GenCacheBlockKey volume inode fixedOffset version) (now w)
             (lruCache (engine w)) = Ok (v, false) ->
    let key := GenCacheBlockKey volume inode fixedOffset version in
    let cb := {| blockAddr := nextAddr w; blockRoot := rootPath (engine w);
                 blockVolume := volume; blockInode := inode;
                 blockOffset := fixedOffset; blockVersion := version;
                 blockAllocSize := allocSize |} in
    let w' :=
      snd (createCacheBlock volume inode fixedOffset version ttl allocSize w) in
    (ttl <= 0 ->
     lruCache (engine w')
     = snd (fst (lru_Set key (VBlock cb) (wrap64 (DefaultCacheTTLSec * Second))
                   (now w) (lruCache (engine w))))
     /\ In (EvLruSet key (VBlock cb) (wrap64 (DefaultCacheTTLSec * Second)))
           (trace w'))
    /\ (0 < ttl ->
        lruCache (engine w')
        = snd (fst (lru_Set key (VBlock cb) (wrap64 (ttl * Second))
                      (now w) (lruCache (engine w))))
        /\ In (EvLruSet key (VBlock cb) (wrap64 (ttl * Second))) (trace w'))
    /\ (0 < ttl <= 9223372036 -> wrap64 (ttl * Second) = ttl * Second).
Proof.
  intros w volume inode fixedOffset version ttl allocSize v Hz H key cb w'.
  assert (G : forall d : Z,
             (if ttl <=? 0 then DefaultCacheTTLSec else ttl) = d ->
             lruCache (engine w')
             = snd (fst (lru_Set key (VBlock cb) (wrap64 (d * Second))
                           (now w) (lruCache (engine w))))
             /\ In (EvLruSet key (VBlock cb) (wrap64 (d * Second))) (trace w')).
  { intros d Hd. subst w' key cb. unfold createCacheBlock.
    apply N.eqb_neq in Hz. rewrite Hz. run. rewrite H. simpl.
    unfold NewCacheBlock. simpl. rewrite Hd.
    match goal with
    | |- context [lru_Set ?k ?b ?t ?n ?c] =>
        destruct (lru_Set k b t n c) as [[[n' err] l] evs]
    end.
    simpl. destruct err as [e|]; simpl.
    - split; [reflexivity|]. rewrite !in_app_iff. simpl. auto 10.
    - unfold callInitCacheStore. run.
      match goal with
      | |- context [initCacheStore ?b ?o] =>
          destruct (initCacheStore b o) as [ierr o']
      end.
      simpl. destruct (0 <? n'); simpl;
        (split; [reflexivity|]; rewrite !in_app_iff; simpl; auto 10). }
  split; [|split].
  - intros Hle. apply G. apply Z.leb_le in Hle. now rewrite Hle.
  - intros Hlt. apply G. apply Z.leb_gt in Hlt. now rewrite Hlt.
  - intros Hr. apply wrap64_small. unfold Second. lia.
Qed.

(** C9: [Stop] closes the LRU first, which runs the destructors the LRU
    reports.  If [Close] returns an error, or [closeC] cannot be closed
    (it is closed already: [close] panics), [Stop] ends there and the
    backing store is left mounted.  Otherwise it closes [closeC], marks
    the engine closed, sleeps two seconds, logs and unmounts the root
    path, in this order.  On every call the events of [Stop] are the
    LRU's close followed by nothing or by that whole sequence, so the
    unmount never comes before the close of the LRU. *)
Theorem Stop_shutdown_order :
  forall (w : World L) (err : error) (l : L) (evs : list Event),
    lru_Close (lruCache (engine w)) = (err, l, evs) ->
    let rest := [EvChanClose; EvSleep (2 * Second);
                 EvLogInfo "CacheEngine stopped, umount tmpfs";
                 EvUmount (rootPath (engine w))] in
    (exists post : list Event,
        trace (snd (Stop w)) = (trace w ++ EvLruClose :: evs ++ post)%list
        /\ (post = [] /\ os (snd (Stop w)) = os w \/ post = rest))
    /\ (err = None -> closeC (engine w) = ChanOpen ->
        fst (Stop w) = Ok (fst (tmpfs.Umount (os w)))
        /\ trace (snd (Stop w)) = (trace w ++ EvLruClose :: evs ++ rest)%list
        /\ now (snd (Stop w)) = now w + 2 * Second
        /\ os (snd (Stop w)) = snd (tmpfs.Umount (os w))
        /\ lruCache (engine (snd (Stop w))) = l
        /\ closeC (engine (snd (Stop w))) = ChanClosed
        /\ closed (engine (snd (Stop w))) = true)
    /\ (forall e : Err, err = Some e ->
        fst (Stop w) = Ok (Some e)
        /\ trace (snd (Stop w)) = (trace w ++ EvLruClose :: evs)%list
        /\ os (snd (Stop w)) = os w)
    /\ (err = None -> closeC (engine w) = ChanClosed ->
        fst (Stop w) = Panicked "close of closed channel"
        /\ trace (snd (Stop w)) = (trace w ++ EvLruClose :: evs)%list
        /\ os (snd (Stop w)) = os w).
Proof.
  intros w err l evs H rest.
  assert (Full : err = None -> closeC (engine w) = ChanOpen ->
                 fst (Stop w) = Ok (fst (tmpfs.Umount (os w)))
                 /\ trace (snd (Stop w)) = (trace w ++ EvLruClose :: evs ++ rest)%list
                 /\ now (snd (Stop w)) = now w + 2 * Second
                 /\ os (snd (Stop w)) = snd (tmpfs.Umount (os w))
                 /\ lruCache (engine (snd (Stop w))) = l
                 /\ closeC (engine (snd (Stop w))) = ChanClosed
                 /\ closed (engine (snd (Stop w))) = true).
  { intros -> Hc. unfold Stop, closeCloseC, Umount, sleep. run.
    rewrite H. simpl. rewrite Hc. simpl.
    destruct (tmpfs.Umount (os w)) as [uerr o]. simpl.
    repeat split. unfold rest. rewrite <- !app_assoc. reflexivity. }
  assert (Early : forall e : Err, err = Some e ->
                  fst (Stop w) = Ok (Some e)
                  /\ trace (snd (Stop w)) = (trace w ++ EvLruClose :: evs)%list
                  /\ os (snd (Stop w)) = os w).
  { intros e ->. unfold Stop. run. rewrite H. simpl. auto. }
  assert (Twice : err = None -> closeC (engine w) = ChanClosed ->
                  fst (Stop w) = Panicked "close of closed channel"
                  /\ trace (snd (Stop w)) = (trace w ++ EvLruClose :: evs)%list
                  /\ os (snd (Stop w)) = os w).
  { intros -> Hc. unfold Stop, closeCloseC. run. rewrite H. simpl.
    rewrite Hc. simpl. auto. }
  split; [|split; [exact Full|split; [exact Early|exact Twice]]].
  destruct err as [e|].
  - exists []. rewrite app_nil_r. destruct (Early e eq_refl) as (_ & Ht & Ho).
    auto.
  - destruct (closeC (engine w)) eqn:Hc.
    + exists []. rewrite app_nil_r.
      unfold Stop, closeCloseC. run. rewrite H. simpl. rewrite Hc. simpl.
      auto.
    + exists rest. destruct (Full eq_refl eq_refl) as (_ & Ht & _). auto.
    + exists []. rewrite app_nil_r.
      destruct (Twice eq_refl eq_refl) as (_ & Ht & Ho). auto.
Qed.

(** C4: the mount protocol that [NewCacheEngine] runs ([os.MkdirAll],
    then [doMount]), on a machine whose system calls do not fail for
    reasons of their own.
    - The root path is absent: it is created, a fresh tmpfs of the
      configured size is mounted, the init file is written.
    - A tmpfs that holds the init file is mounted: it is unmounted, a
      fresh one is mounted, the init file is written again.
    - Something other than a tmpfs is mounted: the call fails and
      touches nothing.
    - Nothing is mounted and the directory is empty: a fresh tmpfs is
      mounted and the init file is written.
    - Nothing is mounted and the directory holds a name: the call fails
      and touches nothing. *)
Theorem NewCacheEngine_mount_protocol :
  forall (w0 : World L) (path : string) (total maxAlloc cap expire : Z),
    (forall sc : Syscall, failing (os w0) sc = false) ->
    let r := NewCacheEngine path total maxAlloc cap expire w0 in
    let store := {| mType := Tmpfs; mStat := mStat (tmpfs.fresh total);
                    mEntries := [InitFileName] |} in
    let mountFresh := [EvMountTmpfs path total;
                       EvCreateFile (path ++ "/" ++ InitFileName)] in
    (root (os w0) = Absent ->
     fst r = Ok (true, None)
     /\ root (os (snd r)) = Present [] [store]
     /\ trace (snd r) = (trace w0 ++ EvMkdirAll path :: mountFresh)%list)
    /\ (forall (es : list string) (m : Mount) (ms : list Mount),
           root (os w0) = Present es (m :: ms) ->
           mType m = Tmpfs -> hasName InitFileName (mEntries m) = true ->
           fst r = Ok (true, None)
           /\ root (os (snd r)) = Present es (store :: ms)
           /\ trace (snd r)
              = (trace w0 ++ EvMkdirAll path :: EvUmount path :: mountFresh)%list)
    /\ (forall (es : list string) (m : Mount) (ms : list Mount),
           root (os w0) = Present es (m :: ms) ->
           mType m = OtherFs ->
           fst r = Ok (true, Some (ErrNew "already mounted by another device"))
           /\ os (snd r) = os w0
           /\ trace (snd r) = (trace w0 ++ [EvMkdirAll path])%list)
    /\ (root (os w0) = Present [] [] ->
        fst r = Ok (true, None)
        /\ root (os (snd r)) = Present [] [store]
        /\ trace (snd r) = (trace w0 ++ EvMkdirAll path :: mountFresh)%list)
    /\ (forall (e : string) (es : list string),
           root (os w0) = Present (e :: es) [] ->
           fst r = Ok (true, Some (ErrNew "not empty dir"))
           /\ os (snd r) = os w0
           /\ trace (snd r) = (trace w0 ++ [EvMkdirAll path])%list).
Proof.
  intros w0 path total maxAlloc cap expire Hf r store mountFresh.
  subst r store mountFresh.
  destruct w0 as [e [rt rs f] n a t]. simpl in *.
  unfold NewCacheEngine, doMount, andAlso, initTmpfs, createInitFile,
    initFileExists, Umount.
  unfold MkdirAll, Stat, StatFile, ReadDir, CreateFile, tmpfs.IsMountPoint,
    tmpfs.IsTmpfs, tmpfs.MountTmpfs, tmpfs.Umount.
  split; [|split; [|split; [|split]]].
  - intros ->. run. repeat (rewrite !Hf; simpl).
    rewrite <- !app_assoc. repeat split; reflexivity.
  - intros es m ms -> Ht Hi. run. repeat (rewrite !Hf; simpl).
    rewrite Ht. simpl. repeat (rewrite !Hf; simpl).
    rewrite Hi. simpl. repeat (rewrite !Hf; simpl).
    rewrite <- !app_assoc. repeat split; reflexivity.
  - intros es m ms -> Ht. run. repeat (rewrite !Hf; simpl).
    rewrite Ht. simpl. repeat split; reflexivity.
  - intros ->. run. repeat (rewrite !Hf; simpl).
    rewrite <- !app_assoc. repeat split; reflexivity.
  - intros x es ->. run. repeat (rewrite !Hf; simpl).
    repeat split; reflexivity.
Qed.

(** X16: a mounted tmpfs without the init file falls through to the
    check of the directory: mounted over when the mount is empty, refused
    when it holds a name. *)
Lemma NewCacheEngine_tmpfs_without_init_file :
  forall (w0 : World L) (path : string) (total maxAlloc cap expire : Z)
         (es : list string) (m : Mount) (ms : list Mount),
    (forall sc : Syscall, failing (os w0) sc = false) ->
    root (os w0) = Present es (m :: ms) ->
    mType m = Tmpfs -> hasName InitFileName (mEntries m) = false ->
    fst (NewCacheEngine path total maxAlloc cap expire w0)
    = match mEntries m with
      | [] => Ok (true, None)
      | _ :: _ => Ok (true, Some (ErrNew "not empty dir"))
      end.
Proof.
  intros w0 path total maxAlloc cap expire es m ms Hf Hr Ht Hi.
  destruct w0 as [e [rt rs f] n a t]. simpl in *. subst rt.
  unfold NewCacheEngine, doMount, andAlso, initTmpfs, createInitFile,
    initFileExists, Umount.
  unfold MkdirAll, Stat, StatFile, ReadDir, CreateFile, tmpfs.IsMountPoint,
    tmpfs.IsTmpfs, tmpfs.MountTmpfs, tmpfs.Umount.
  run. repeat (rewrite !Hf; simpl). rewrite Ht. simpl.
  repeat (rewrite !Hf; simpl). rewrite Hi. simpl.
  repeat (rewrite !Hf; simpl).
  destruct (mEntries m); simpl; repeat (rewrite !Hf; simpl); reflexivity.
Qed.

(** [usedSize] is the number of blocks of the file system times the
    block size, whatever the number of free blocks. *)
Lemma usedSize_is_total_size :
  forall (w : World L) (stat : Statfs_t),
    Statfs (os w) = (stat, None) ->
    usedSize w
    = (Ok (wrap64 (wrap64 (Z.of_N (Blocks stat)) * wrap64 (Bsize stat))), w).
Proof.
  intros w stat H. unfold usedSize. run. rewrite H. reflexivity.
Qed.

Lemma Status_Used_is_usedSize :
  forall (w : World L) (stat : Statfs_t),
    Statfs (os w) = (stat, None) ->
    exists st : proto.CacheStatus,
      Status w = (Ok st, w)
      /\ proto.Used st
         = wrap64 (wrap64 (Z.of_N (Blocks stat)) * wrap64 (Bsize stat)).
Proof.
  intros w stat H. unfold Status. run.
  rewrite (usedSize_is_total_size w stat H). simpl.
  eexists. split; reflexivity.
Qed.

End EngineFacts.

(** ** The LRU index: facts *)

Lemma creations_destroyAll (es : list lru.entry) :
  creations (lru.destroyAll es) = O.
Proof. induction es as [|e es IH]; simpl; auto. Qed.

(** Eviction from the tail spares the head when the head alone is within
    both bounds. *)
Lemma evictTail_keeps_head (cap maxb : Z) (e : lru.entry) :
  1 <= cap -> lru.eWeight e <= maxb ->
  forall (fuel : nat) (rest evicted : list lru.entry),
  exists rest' evicted',
    lru.evictTail fuel cap maxb (e :: rest) evicted = (e :: rest', evicted').
Proof.
  intros Hc Hw. induction fuel as [|fuel IH]; intros rest evicted; simpl.
  - eauto.
  - destruct ((cap <? Z.pos (Pos.of_succ_nat (List.length rest)))
              || (maxb <? lru.eWeight e + lru.totalWeight rest)) eqn:Over;
      [|eauto].
    destruct rest as [|b rest].
    + exfalso. simpl in Over. apply orb_true_iff in Over.
      destruct Over as [O|O]; apply Z.ltb_lt in O; lia.
    + destruct (List.rev (b :: rest) ++ [e])%list as [|victim tl] eqn:R.
      * destruct (List.rev (b :: rest)); discriminate.
      * change (removelast (e :: b :: rest))
          with (e :: removelast (b :: rest)).
        apply IH.
Qed.

(** After a [Set] within the bounds the key is found, with the value
    set, until its time to live has passed. *)
Lemma Put_then_Peek (key : string) (v : Value) (d now : Z) (c : lru.fCache) :
  lru.isClosed c = false -> 1 <= lru.capacity c ->
  lru.weightOf v <= lru.maxAlloc c -> 0 < d ->
  exists (n : Z) (c' : lru.fCache) (evs : list Event),
    lru.Put key v d now c = ((n, None), c', evs)
    /\ lru.Peek key now c' = Ok (v, true)
    /\ creations evs = O.
Proof.
  intros Hcl Hcap Hw Hd. unfold lru.Put. rewrite Hcl.
  assert (Fit : (lru.maxAlloc c <? lru.weightOf v) = false)
    by (apply Z.ltb_ge; lia).
  rewrite Fit.
  set (e := {| lru.eKey := key; lru.eValue := v; lru.eWeight := lru.weightOf v;
               lru.eExpire := now + d |}).
  destruct (evictTail_keeps_head (lru.capacity c) (lru.maxAlloc c) e Hcap Hw
              (List.length (e :: lru.remove key (lru.items c)))
              (lru.remove key (lru.items c)) []) as (rest' & evicted' & E).
  rewrite E. do 3 eexists. split; [reflexivity|]. split.
  - unfold lru.Peek. simpl. rewrite String.eqb_refl. simpl.
    assert (Fresh : (now <? now + d) = true) by (apply Z.ltb_lt; lia).
    rewrite Fresh. reflexivity.
  - rewrite creations_app, creations_destroyAll.
    destruct (lru.find key (lru.items c)); reflexivity.
Qed.

(** On this index, the first admission of a key builds one block, and
    every later call for the key, made before the entry expires, returns
    that block and builds none: one creation in all. *)
Lemma first_creation_then_hits :
  forall (X : Externals) (w : World lru.fCache) (volume : string)
         (inode fixedOffset version : N) (ttl : Z) (allocSize : N)
         (calls : list (Z * N)) (v : Value) (o' : OS),
    let key := GenCacheBlockKey volume inode fixedOffset version in
    let cb := {| blockAddr := nextAddr w; blockRoot := rootPath (engine w);
                 blockVolume := volume; blockInode := inode;
                 blockOffset := fixedOffset; blockVersion := version;
                 blockAllocSize := allocSize |} in
    let first :=
      createCacheBlock volume inode fixedOffset version ttl allocSize w in
    allocSize <> 0%N ->
    lru.isClosed (lruCache (engine w)) = false ->
    1 <= lru.capacity (lruCache (engine w)) ->
    Z.of_N allocSize <= lru.maxAlloc (lruCache (engine w)) ->
    0 < wrap64 ((if ttl <=? 0 then DefaultCacheTTLSec else ttl) * Second) ->
    lru.Peek key (now w) (lruCache (engine w)) = Ok (v, false) ->
    initCacheStore cb (os w) = (None, o') ->
    Forall (fun c => snd c <> 0%N) calls ->
    fst first = Ok (Some cb, None)
    /\ Forall (fun r => r = Ok (Some cb, None))
              (fst (createEach volume inode fixedOffset version calls
                      (snd first)))
    /\ creations
         (trace (snd (createEach volume inode fixedOffset version calls
                        (snd first))))
       = S (creations (trace w)).
Proof.
  intros X w volume inode fixedOffset version ttl allocSize calls v o'
         key cb first Hz Hcl Hcap Hfit Hd Hmiss Hinit Hcalls.
  destruct (Put_then_Peek key (VBlock cb)
              (wrap64 ((if ttl <=? 0 then DefaultCacheTTLSec else ttl) * Second))
              (now w) (lruCache (engine w)) Hcl Hcap Hfit Hd)
    as (n & c' & evs & HPut & HPeek & Hevs).
  assert (F : exists w1 : World lru.fCache,
             first = (Ok (Some cb, None), w1)
             /\ now w1 = now w /\ lruCache (engine w1) = c'
             /\ creations (trace w1) = S (creations (trace w))).
  { subst first. unfold createCacheBlock.
    apply N.eqb_neq in Hz. rewrite Hz.
    unfold bind, ret, emit, callPeek, callSet, getEngine, monitorFunc,
      callInitCacheStore, syscall, NewCacheBlock. simpl.
    fold key. unfold lru_Peek, lru_Set. simpl.
    unfold key in Hmiss. fold key in Hmiss. rewrite Hmiss. simpl.
    fold cb. rewrite HPut. simpl. rewrite Hinit. simpl.
    destruct (0 <? n); simpl; eexists; (split; [reflexivity|]);
      simpl; repeat split;
      rewrite !creations_app; simpl; rewrite ?creations_app, Hevs; simpl;
      lia. }
  destruct F as (w1 & E & Hnow & Hlru & Hcre).
  rewrite E. simpl. split; [reflexivity|].
  assert (P : lru_Peek (GenCacheBlockKey volume inode fixedOffset version)
                (now w1) (lruCache (engine w1)) = Ok (VBlock cb, true)).
  { rewrite Hnow, Hlru. exact HPeek. }
  destruct (createEach_hits volume inode fixedOffset version cb calls w1
              Hcalls P) as (R & _ & _ & C).
  split; [exact R|]. rewrite C. exact Hcre.
Qed.

(** ** The engine on the sample instances *)

Lemma GenCacheBlockKey_sampleKey : GenCacheBlockKey "vol" 1 0 1 = "vol/1#0#1".
Proof. reflexivity. Qed.

Lemma PeekCacheBlock_panic_yields_nil_nil_witness :
  PeekCacheBlock (LRU := panickingLru) (X := sampleExternals)
    "vol/1#0#1" startedWorld
  = (Ok (None, None),
     emits [EvRLock 1; EvLruPeek "vol/1#0#1"; EvRUnlock 1;
            EvLogError "PeekCacheBlock occurred panic:invalid memory address";
            EvExporterWarning
              "PeekCacheBlock occurred panic:invalid memory address"]
           startedWorld).
Proof.
  apply (PeekCacheBlock_panic_yields_nil_nil (LRU := panickingLru)
           (X := sampleExternals) startedWorld "vol/1#0#1"
           "invalid memory address").
  reflexivity.
Defined.

Lemma PrepareCache_admitted_returns_success_witness :
  PrepareCache (X := sampleExternals) 7
    (sampleRequest 0 [sampleSource 65536]) fullQueueWorld
  = (Ok None,
     emits
       [EvLogWarn "action[SendToPrepareTaskCh] cachePrepareTaskCh has been full"]
       (snd (CreateBlock (X := sampleExternals)
               (sampleRequest 0 [sampleSource 65536]) fullQueueWorld))).
Proof.
  apply (PrepareCache_admitted_returns_success (X := sampleExternals)
           fullQueueWorld
           (snd (CreateBlock (X := sampleExternals)
                   (sampleRequest 0 [sampleSource 65536]) fullQueueWorld))
           7 (sampleRequest 0 [sampleSource 65536]) (Some sampleBlock)).
  - vm_compute. reflexivity.
  - vm_compute. apply le_n.
Defined.

Lemma rejected_admission_changes_nothing_witness :
  CreateBlock (X := sampleExternals) (sampleRequest 60 []) admittedWorld
  = (Ok (None, Some (ErrNew "no source data")), admittedWorld)
  /\ createCacheBlock (X := sampleExternals) "vol" 1 0 1 60 0 admittedWorld
     = (Ok (None, Some (ErrNew "alloc size is zero")), admittedWorld).
Proof.
  split.
  - apply (rejected_admission_changes_nothing (X := sampleExternals)).
    reflexivity.
  - apply (rejected_admission_changes_nothing (X := sampleExternals)).
Defined.

(** C3, the claim as given fails: with a block present under the key, a
    call of [createCacheBlock] with an allocated size of zero returns an
    error and no block; the guard on the size comes before the lookup. *)
Lemma createCacheBlock_zero_size_skips_lookup :
  lru_Peek "vol/1#0#1" (now admittedWorld) (lruCache (engine admittedWorld))
  = Ok (VBlock sampleBlock, true)
  /\ createCacheBlock (X := sampleExternals) "vol" 1 0 1 60 0 admittedWorld
     = (Ok (None, Some (ErrNew "alloc size is zero")), admittedWorld).
Proof. split; reflexivity. Qed.

Lemma createCacheBlock_returns_present_block_witness :
  createCacheBlock (X := sampleExternals) "vol" 1 0 1 60 4096 admittedWorld
  = (Ok (Some sampleBlock, None),
     emits [EvLock 1; EvLruPeek "vol/1#0#1"; EvUnlock 1] admittedWorld)
  /\ Forall (fun r => r = Ok (Some sampleBlock, None))
            (fst (createEach (X := sampleExternals) "vol" 1 0 1
                    [(0, 1%N); (60, 4096%N); (-5, 65536%N)] admittedWorld))
  /\ creations
       (trace (snd (createEach (X := sampleExternals) "vol" 1 0 1
                      [(0, 1%N); (60, 4096%N); (-5, 65536%N)] admittedWorld)))
     = creations (trace admittedWorld).
Proof.
  assert (Present :
            lru_Peek (GenCacheBlockKey "vol" 1 0 1) (now admittedWorld)
                     (lruCache (engine admittedWorld))
            = Ok (VBlock sampleBlock, true)) by reflexivity.
  destruct (createCacheBlock_returns_present_block (X := sampleExternals)
              admittedWorld "vol" 1 0 1 sampleBlock Present) as [One Many].
  split.
  - apply One. discriminate.
  - destruct (Many [(0, 1%N); (60, 4096%N); (-5, 65536%N)]) as (R & _ & _ & C).
    + repeat constructor; discriminate.
    + split; [exact R | exact C].
Defined.

(** The first admission of the sample key builds one block; the later
    calls build none. *)
Example one_creation_for_the_sample_key :
  creations (trace startedWorld) = O
  /\ creations (trace admittedWorld) = 1%nat
  /\ creations
       (trace (snd (createEach (X := sampleExternals) "vol" 1 0 1
                      [(0, 1%N); (60, 4096%N); (-5, 65536%N)] admittedWorld)))
     = 1%nat.
Proof. repeat split. Qed.

Lemma NewCacheEngine_mount_protocol_witness :
  (fst (startOn Absent) = Ok (true, None)
   /\ root (os (snd (startOn Absent))) = Present [] [sampleStore])
  /\ (fst (startOn (Present [] [staleStore])) = Ok (true, None)
      /\ root (os (snd (startOn (Present [] [staleStore]))))
         = Present [] [sampleStore]
      /\ trace (snd (startOn (Present [] [staleStore])))
         = [EvMkdirAll "/cfs/tmpfs"; EvUmount "/cfs/tmpfs";
            EvMountTmpfs "/cfs/tmpfs" MiB; EvCreateFile "/cfs/tmpfs/.init"])
  /\ fst (startOn (Present [] [otherMount]))
     = Ok (true, Some (ErrNew "already mounted by another device"))
  /\ fst (startOn (Present [] [])) = Ok (true, None)
  /\ fst (startOn (Present ["lost+found"] []))
     = Ok (true, Some (ErrNew "not empty dir")).
Proof.
  unfold startOn.
  split; [|split; [|split; [|split]]].
  - destruct (NewCacheEngine_mount_protocol (X := sampleExternals)
                (worldOn (machine Absent)) "/cfs/tmpfs" MiB 943718 2
                (3600 * Second) (fun _ => eq_refl)) as (C & _).
    destruct (C eq_refl) as (A & B & _). split; [exact A | exact B].
  - destruct (NewCacheEngine_mount_protocol (X := sampleExternals)
                (worldOn (machine (Present [] [staleStore])))
                "/cfs/tmpfs" MiB 943718 2
                (3600 * Second) (fun _ => eq_refl)) as (_ & C & _).
    exact (C _ _ _ eq_refl eq_refl eq_refl).
  - destruct (NewCacheEngine_mount_protocol (X := sampleExternals)
                (worldOn (machine (Present [] [otherMount])))
                "/cfs/tmpfs" MiB 943718 2
                (3600 * Second) (fun _ => eq_refl)) as (_ & _ & C & _).
    exact (proj1 (C _ _ _ eq_refl eq_refl)).
  - destruct (NewCacheEngine_mount_protocol (X := sampleExternals)
                (worldOn (machine (Present [] []))) "/cfs/tmpfs" MiB 943718 2
                (3600 * Second) (fun _ => eq_refl)) as (_ & _ & _ & C & _).
    exact (proj1 (C eq_refl)).
  - destruct (NewCacheEngine_mount_protocol (X := sampleExternals)
                (worldOn (machine (Present ["lost+found"] [])))
                "/cfs/tmpfs" MiB 943718 2
                (3600 * Second) (fun _ => eq_refl)) as (_ & _ & _ & _ & C).
    exact (proj1 (C _ _ eq_refl)).
Defined.

(** The sample key after its time to live: the entry is there, expired. *)
Lemma GetCacheBlockForRead_outcomes_witness :
  (* expired *)
  (fst (GetCacheBlockForRead (X := sampleExternals) "vol" 1 0 1 65536
          (atTime admittedWorld (301 * Second)))
   = Ok (None,
         Some (ErrWrap "GetCacheBlockForRead, key[vol/1#0#1]" CacheExpireError))
   /\ trace (snd (GetCacheBlockForRead (X := sampleExternals) "vol" 1 0 1 65536
                    (atTime admittedWorld (301 * Second))))
      = (trace admittedWorld
         ++ [EvRLock 1; EvLruGet "vol/1#0#1";
             EvOnClose (VBlock sampleBlock); EvOnDelete (VBlock sampleBlock);
             EvMonitor "vol" proto.ActionCacheExpire 65536; EvRUnlock 1])%list)
  (* missing *)
  /\ (fst (GetCacheBlockForRead (X := sampleExternals) "vol" 2 0 1 65536
             admittedWorld)
      = Ok (None,
            Some (ErrWrap "GetCacheBlockForRead, key[vol/2#0#1]"
                    (ErrNew "not found")))
      /\ trace (snd (GetCacheBlockForRead (X := sampleExternals) "vol" 2 0 1
                       65536 admittedWorld))
         = (trace admittedWorld
            ++ [EvRLock 1; EvLruGet "vol/2#0#1"; EvRUnlock 1])%list)
  (* hit *)
  /\ (fst (GetCacheBlockForRead (X := sampleExternals) "vol" 1 0 1 65536
             admittedWorld)
      = Ok (Some sampleBlock, None)
      /\ trace (snd (GetCacheBlockForRead (X := sampleExternals) "vol" 1 0 1
                       65536 admittedWorld))
         = (trace admittedWorld
            ++ [EvRLock 1; EvLruGet "vol/1#0#1"; EvRUnlock 1])%list).
Proof.
  split; [|split].
  - assert (G : lru_Get (GenCacheBlockKey "vol" 1 0 1)
                  (now (atTime admittedWorld (301 * Second)))
                  (lruCache (engine (atTime admittedWorld (301 * Second))))
                = ((VNil, Some CacheExpireError),
                   snd (fst (lru.Get "vol/1#0#1" (301 * Second)
                               (lruCache (engine admittedWorld)))),
                   lru.destroy (VBlock sampleBlock))) by (vm_compute; reflexivity).
    destruct (GetCacheBlockForRead_outcomes (X := sampleExternals)
                _ "vol" 1 0 1 65536 _ _ _ _ G) as (E & _).
    rewrite (E eq_refl). split; vm_compute; reflexivity.
  - assert (G : lru_Get (GenCacheBlockKey "vol" 2 0 1) (now admittedWorld)
                  (lruCache (engine admittedWorld))
                = ((VNil, Some (ErrNew "not found")),
                   lru.countMiss (lruCache (engine admittedWorld)), []))
      by (vm_compute; reflexivity).
    destruct (GetCacheBlockForRead_outcomes (X := sampleExternals)
                _ "vol" 2 0 1 65536 _ _ _ _ G) as (_ & E & _).
    rewrite (E (ErrNew "not found") eq_refl); [split; vm_compute; reflexivity|].
    discriminate.
  - assert (G : lru_Get (GenCacheBlockKey "vol" 1 0 1) (now admittedWorld)
                  (lruCache (engine admittedWorld))
                = ((VBlock sampleBlock, None),
                   snd (fst (lru.Get "vol/1#0#1" 0
                               (lruCache (engine admittedWorld)))), []))
      by (vm_compute; reflexivity).
    destruct (GetCacheBlockForRead_outcomes (X := sampleExternals)
                _ "vol" 1 0 1 65536 _ _ _ _ G) as (_ & _ & E).
    rewrite (E sampleBlock eq_refl eq_refl). split; vm_compute; reflexivity.
Defined.

(** C6: on the engine just built over a fresh tmpfs of 1 MiB, no block
    of the file system is in use, and [Status] reports [Used] as
    1048576: [usedSize] multiplies the total number of blocks, not the
    number of blocks in use, by the block size. *)
Theorem Status_Used_is_not_the_bytes_in_use :
  exists (st : proto.CacheStatus) (stat : Statfs_t),
    Status startedWorld = (Ok st, startedWorld)
    /\ Statfs (os startedWorld) = (stat, None)
    /\ proto.Used st = 1048576
    /\ consumedBytes stat = 0
    /\ proto.Used st = Z.of_N (Blocks stat) * Bsize stat.
Proof.
  eexists. eexists. repeat split; vm_compute; reflexivity.
Qed.

(** C7, the claim as given fails: the engine is built with an expire
    duration of one hour; a request without a time to live is admitted
    with [proto.DefaultCacheTTLSec] seconds (here 300), and its entry
    expires after that time, not after the hour. *)
Lemma createCacheBlock_default_ttl_is_not_expireTime :
  lru.ttl (lruCache (engine startedWorld)) = 3600 * Second
  /\ In (EvLruSet "vol/1#0#1" (VBlock sampleBlock) (300 * Second))
        (trace (snd (createCacheBlock (X := sampleExternals) "vol" 1 0 1 0
                       65536 startedWorld)))
  /\ option_map lru.eExpire
       (lru.find "vol/1#0#1"
          (lru.items
             (lruCache
                (engine
                   (snd (createCacheBlock (X := sampleExternals) "vol" 1 0 1 0
                           65536 startedWorld))))))
     = Some (now startedWorld + 300 * Second)
  /\ 300 * Second <> 3600 * Second.
Proof.
  split; [reflexivity|]. split; [|split].
  - vm_compute. auto 10.
  - vm_compute. reflexivity.
  - discriminate.
Qed.

Lemma createCacheBlock_ttl_of_new_entry_witness :
  In (EvLruSet "vol/1#0#1" (VBlock sampleBlock) (wrap64 (300 * Second)))
     (trace (snd (createCacheBlock (X := sampleExternals) "vol" 1 0 1 (-1)
                    65536 startedWorld)))
  /\ In (EvLruSet "vol/1#0#1" (VBlock sampleBlock) (wrap64 (60 * Second)))
        (trace (snd (createCacheBlock (X := sampleExternals) "vol" 1 0 1 60
                       65536 startedWorld)))
  /\ wrap64 (60 * Second) = 60 * Second.
Proof.
  assert (Miss : lru_Peek (GenCacheBlockKey "vol" 1 0 1) (now startedWorld)
                   (lruCache (engine startedWorld)) = Ok (VNil, false))
    by (vm_compute; reflexivity).
  assert (NZ : 65536%N <> 0%N) by discriminate.
  split; [|split].
  - destruct (createCacheBlock_ttl_of_new_entry (X := sampleExternals)
                startedWorld "vol" 1 0 1 (-1) 65536 VNil NZ Miss) as (A & _).
    apply A. discriminate.
  - destruct (createCacheBlock_ttl_of_new_entry (X := sampleExternals)
                startedWorld "vol" 1 0 1 60 65536 VNil NZ Miss) as (_ & A & _).
    apply A. reflexivity.
  - destruct (createCacheBlock_ttl_of_new_entry (X := sampleExternals)
                startedWorld "vol" 1 0 1 60 65536 VNil NZ Miss) as (_ & _ & A).
    apply A. split; [reflexivity | discriminate].
Defined.

Lemma Stop_shutdown_order_witness :
  (* a first call runs the whole sequence *)
  (fst (Stop admittedWorld) = Ok None
   /\ trace (snd (Stop admittedWorld))
      = (trace admittedWorld
         ++ EvLruClose
            :: [EvOnClose (VBlock sampleBlock); EvOnDelete (VBlock sampleBlock)]
            ++ [EvChanClose; EvSleep (2 * Second);
                EvLogInfo "CacheEngine stopped, umount tmpfs";
                EvUmount "/cfs/tmpfs"])%list
   /\ now (snd (Stop admittedWorld)) = now admittedWorld + 2 * Second
   /\ root (os (snd (Stop admittedWorld))) = Present [] [])
  (* a second call panics on the closed channel and unmounts nothing *)
  /\ (fst (Stop (snd (Stop admittedWorld)))
      = Panicked "close of closed channel"
      /\ trace (snd (Stop (snd (Stop admittedWorld))))
         = (trace (snd (Stop admittedWorld)) ++ EvLruClose :: [])%list).
Proof.
  split.
  - assert (C : lru_Close (lruCache (engine admittedWorld))
                = (None, lru.close (lruCache (engine admittedWorld)),
                   [EvOnClose (VBlock sampleBlock);
                    EvOnDelete (VBlock sampleBlock)]))
      by (vm_compute; reflexivity).
    destruct (Stop_shutdown_order admittedWorld _ _ _ C) as (_ & Full & _).
    destruct (Full eq_refl) as (R & T & Nw & Os & _);
      [vm_compute; reflexivity|].
    rewrite R, T, Nw, Os. repeat split.
  - assert (C : lru_Close (lruCache (engine (snd (Stop admittedWorld))))
                = (None, lru.close (lruCache (engine admittedWorld)), []))
      by (vm_compute; reflexivity).
    destruct (Stop_shutdown_order (snd (Stop admittedWorld)) _ _ _ C)
      as (_ & _ & _ & Twice).
    destruct (Twice eq_refl) as (R & T & _); [vm_compute; reflexivity|].
    rewrite R, T. split; reflexivity.
Defined.


(** * More of the engine *)

(** ** Block keys: all volumes *)

Lemma occurs_app (c : ascii) (a b : string) :
  occurs c (a ++ b) = occurs c a || occurs c b.
Proof.
  induction a as [|x a IH]; simpl; [reflexivity|].
  now rewrite IH, orb_assoc.
Qed.

Lemma FormatUint_no_slash (n : N) : occurs "/" (FormatUint n) = false.
Proof.
  apply allDigits_occurs; [reflexivity | apply FormatUint_allDigits].
Qed.

Lemma firstField_no_sep (c : ascii) (s : string) :
  occurs c (firstField c s) = false.
Proof.
  induction s as [|x s IH]; simpl; [reflexivity|].
  destruct (Ascii.eqb x c) eqn:E; simpl; [reflexivity|].
  now rewrite E, IH.
Qed.

(** Two texts cut at the last occurrence of a separator agree on both
    sides of the cut. *)
Lemma split_at_last_sep (c : ascii) (a a' r r' : string) :
  occurs c r = false -> occurs c r' = false ->
  a ++ String c r = a' ++ String c r' -> a = a' /\ r = r'.
Proof.
  intros Hr Hr'. revert a'.
  induction a as [|x a IH]; intros [|y a'] E; simpl in E.
  - injection E as <-. auto.
  - injection E as E1 E2. subst r.
    rewrite occurs_app in Hr. simpl in Hr.
    rewrite Ascii.eqb_refl, orb_true_r in Hr. discriminate.
  - injection E as E1 E2. subst r'.
    rewrite occurs_app in Hr'. simpl in Hr'.
    rewrite Ascii.eqb_refl, orb_true_r in Hr'. discriminate.
  - injection E as E1 E2. subst y.
    destruct (IH a' E2) as [-> ->]. auto.
Qed.

Lemma key_tail_no_slash (i o ver : N) :
  occurs "/" (FormatUint i ++ "#" ++ FormatUint o ++ "#" ++ FormatUint ver)
  = false.
Proof.
  rewrite !occurs_app, !FormatUint_no_slash. reflexivity.
Qed.

(** X1: [GenCacheBlockKey] is injective on all tuples, whatever bytes the
    volume holds: the numerals after the last slash hold no slash, so a
    key determines its volume, inode, offset and version. *)
Theorem GenCacheBlockKey_injective_for_all_volumes :
  forall (v v' : string) (i i' o o' ver ver' : N),
    GenCacheBlockKey v i o ver = GenCacheBlockKey v' i' o' ver'
    <-> (v, i, o, ver) = (v', i', o', ver').
Proof.
  intros v v' i i' o o' ver ver'. split.
  - unfold GenCacheBlockKey. intros E.
    apply (split_at_last_sep "/") in E; auto using key_tail_no_slash.
    destruct E as [-> E].
    apply (split_at_sep "#") in E; auto using FormatUint_no_hash.
    destruct E as [Ei E].
    apply (split_at_sep "#") in E; auto using FormatUint_no_hash.
    destruct E as [Eo Ev].
    apply FormatUint_inj in Ei, Eo, Ev. now subst.
  - intros [= -> -> -> ->]. reflexivity.
Qed.

Lemma firstField_before_sep (c : ascii) (a r : string) :
  firstField c (a ++ String c r) = firstField c a.
Proof.
  induction a as [|x a IH]; simpl.
  - now rewrite Ascii.eqb_refl.
  - destruct (Ascii.eqb x c); [reflexivity | now rewrite IH].
Qed.

(** X22: the test of [EvictVolumeCache] on the key of any volume: the
    key is chosen exactly when the volume to evict is the key's volume
    cut at its first slash.  So evicting a volume [a] also evicts the
    blocks of every volume [a/...], and for a volume without a slash the
    test is equality of the volumes. *)
Theorem EvictVolumeCache_filter_for_all_volumes :
  forall (evictVol v : string) (i o ver : N),
    (String.eqb evictVol (firstField "/" (GenCacheBlockKey v i o ver)) = true
     <-> evictVol = firstField "/" v)
    /\ (occurs "/" v = false -> firstField "/" v = v).
Proof.
  intros evictVol v i o ver. split.
  - unfold GenCacheBlockKey.
    change (v ++ "/" ++ FormatUint i ++ "#" ++ FormatUint o ++ "#"
              ++ FormatUint ver)
      with (v ++ String "/" (FormatUint i ++ "#" ++ FormatUint o ++ "#"
                               ++ FormatUint ver)).
    rewrite firstField_before_sep. apply String.eqb_eq.
  - intros Hv. induction v as [|x v IH]; simpl in *; [reflexivity|].
    apply orb_false_iff in Hv. destruct Hv as [Hx Hv].
    rewrite Hx. now rewrite (IH Hv).
Qed.

Lemma append_assoc' (a b c : string) : (a ++ b) ++ c = a ++ b ++ c.
Proof. induction a as [|x a IH]; simpl; [reflexivity | now rewrite IH]. Qed.

Lemma firstField_hash_GenCacheBlockKey (v : string) (i o ver : N) :
  occurs "#" v = false ->
  firstField "#" (GenCacheBlockKey v i o ver) = v ++ "/" ++ FormatUint i.
Proof.
  intros Hv. unfold GenCacheBlockKey.
  change (v ++ "/" ++ FormatUint i ++ "#" ++ FormatUint o ++ "#" ++ FormatUint ver)
    with (v ++ "/" ++ FormatUint i
            ++ String "#" (FormatUint o ++ "#" ++ FormatUint ver)).
  rewrite <- (append_assoc' "/"), <- append_assoc'.
  apply firstField_app.
  rewrite !occurs_app, Hv, FormatUint_no_hash. reflexivity.
Qed.

(** X5: the test of [EvictInodeCache] on a key built from a volume
    without a hash sign holds exactly when the key's volume and inode
    are the ones to evict, whatever the offset and the version. *)
Theorem EvictInodeCache_filter :
  forall (vol v : string) (inode i o ver : N),
    occurs "#" v = false ->
    String.eqb (vol ++ "/" ++ FormatUint inode)
               (firstField "#" (GenCacheBlockKey v i o ver)) = true
    <-> vol = v /\ inode = i.
Proof.
  intros vol v inode i o ver Hv.
  rewrite (firstField_hash_GenCacheBlockKey v i o ver Hv), String.eqb_eq.
  split.
  - intros E. apply (split_at_last_sep "/") in E; auto using FormatUint_no_slash.
    destruct E as [-> E]. apply FormatUint_inj in E. auto.
  - intros [-> ->]. reflexivity.
Qed.

Lemma EvictInodeCache_filter_witness :
  String.eqb ("vol" ++ "/" ++ FormatUint 7)
             (firstField "#" (GenCacheBlockKey "vol" 7 4096 2)) = true
  <-> "vol" = "vol" /\ 7%N = 7%N.
Proof.
  apply (EvictInodeCache_filter "vol" "vol" 7 7 4096 2). reflexivity.
Defined.


(** ** Eviction by volume and by inode *)

Section EvictionFacts.

Context {L : Type} {LRU : LruCache L} {X : Externals}.

Ltac run :=
  unfold asCacheBlock, monitorFunc, callGet, callPeek, callSet, callEvict,
    callKeys, callClose, syscall, query, getEngine, modEngine, defer,
    deferRecover, emit, panic, bind, ret; simpl.

Lemma evictEach_incl (keys : list string) (l : L) :
  incl (fst (evictEach keys l)) keys.
Proof.
  revert l. induction keys as [|k keys IH]; intros l; simpl.
  - apply incl_refl.
  - destruct (lru_Evict k l) as [[ok l1] evs].
    specialize (IH l1). destruct (evictEach keys l1) as [failed l2].
    simpl in *. destruct ok.
    + now apply incl_tl.
    + apply incl_cons; [now left | now apply incl_tl].
Qed.

Lemma evictVolumeLoop_spec (evictVol : string) :
  forall (keys : list string) (w : World L) (count : Z)
         (failedKeys : list string),
    let hit := filter (fun k => String.eqb evictVol (firstField "/" k)) keys in
    exists w' : World L,
      evictVolumeLoop evictVol keys count failedKeys w
      = (Ok (count + Z.of_nat (List.length hit),
             (failedKeys ++ fst (evictEach hit (lruCache (engine w))))%list),
         w')
      /\ lruCache (engine w') = snd (evictEach hit (lruCache (engine w)))
      /\ trace w'
         = (trace w ++ evictEachTrace hit (lruCache (engine w)))%list
      /\ os w' = os w
      /\ cachePrepareTaskCh (engine w') = cachePrepareTaskCh (engine w).
Proof.
  induction keys as [|k keys IH]; intros w count failedKeys; simpl.
  - exists w. unfold ret. rewrite Z.add_0_r, !app_nil_r. auto.
  - destruct (String.eqb evictVol (firstField "/" k)) eqn:E.
    + run. destruct (lru_Evict k (lruCache (engine w))) as [[ok l1] evs] eqn:Ev.
      simpl.
      match goal with
      | |- context [evictVolumeLoop evictVol keys ?c ?f ?w1] =>
          destruct (IH w1 c f) as (w' & R & Hl & Ht & Ho & Hq)
      end.
      simpl in *. exists w'. rewrite R, Hl, Ht, Ho, Hq.
      destruct (evictEach _ l1) as [failed l2]. simpl.
      repeat split.
      * assert (C : count + 1 + Z.of_nat (List.length
                      (filter (fun k0 => String.eqb evictVol (firstField "/" k0))
                         keys))
                    = count + Z.pos (Pos.of_succ_nat (List.length
                        (filter (fun k0 => String.eqb evictVol (firstField "/" k0))
                           keys)))) by lia.
        rewrite C. destruct ok; simpl; [reflexivity|].
        now rewrite <- app_assoc.
      * rewrite <- !app_assoc. reflexivity.
    + apply IH.
Qed.

(** X2: [EvictVolumeCache] takes one snapshot of the keys and hands to
    the LRU's [Evict], in order and each under the exclusive lock of its
    key, exactly the keys whose text before the first slash is the
    volume; it returns those of them that [Evict] did not remove.  No
    other key is handed to [Evict], and neither the machine nor the
    prepare queue changes. *)
Theorem EvictVolumeCache_evicts_the_volume :
  forall (w : World L) (evictVol : string),
    let l := lruCache (engine w) in
    let hit := filter (fun k => String.eqb evictVol (firstField "/" k))
                      (lru_Keys l) in
    let r := EvictVolumeCache evictVol w in
    fst r = Ok (fst (evictEach hit l))
    /\ incl (fst (evictEach hit l)) hit
    /\ lruCache (engine (snd r)) = snd (evictEach hit l)
    /\ trace (snd r)
       = (trace w ++ EvLruKeys :: evictEachTrace hit l
            ++ [EvLogWarn "action[EvictVolumeCache] evict volume finish"])%list
    /\ os (snd r) = os w
    /\ cachePrepareTaskCh (engine (snd r)) = cachePrepareTaskCh (engine w).
Proof.
  intros w evictVol l hit r. subst r. unfold EvictVolumeCache. run.
  destruct (evictVolumeLoop_spec evictVol (lru_Keys (lruCache (engine w)))
              (emits [EvLruKeys] w) 0 [])
    as (w' & R & Hl & Ht & Ho & Hq).
  simpl in *. rewrite R. simpl. fold l in Hl, Ht |- *. fold hit in Hl, Ht |- *.
  repeat split; auto.
  - apply evictEach_incl.
  - rewrite Ht, <- !app_assoc. reflexivity.
Qed.

Lemma no_key_matches_a_name_with_the_separator (c : ascii) (name : string)
  (keys : list string) :
  occurs c name = true ->
  filter (fun k => String.eqb name (firstField c k)) keys = [].
Proof.
  intros H. induction keys as [|k keys IH]; simpl; [reflexivity|].
  destruct (String.eqb_spec name (firstField c k)) as [E|_]; [|exact IH].
  rewrite E, firstField_no_sep in H. discriminate.
Qed.

Lemma evictVolumeLoop_no_hit (evictVol : string) :
  forall (keys : list string) (w : World L) (count : Z)
         (failedKeys : list string),
    filter (fun k => String.eqb evictVol (firstField "/" k)) keys = [] ->
    evictVolumeLoop evictVol keys count failedKeys w
    = (Ok (count, failedKeys), w).
Proof.
  induction keys as [|k keys IH]; intros w count failedKeys H; simpl in *.
  - reflexivity.
  - destruct (String.eqb evictVol (firstField "/" k)); [discriminate|].
    now apply IH.
Qed.

(** X3: a volume whose name holds a slash is never evicted by
    [EvictVolumeCache]: the text before a key's first slash holds no
    slash, so no key matches, the LRU is left alone and the result is
    empty, whatever the cache holds. *)
Theorem EvictVolumeCache_volume_with_slash :
  forall (w : World L) (evictVol : string),
    occurs "/" evictVol = true ->
    EvictVolumeCache evictVol w
    = (Ok [],
       emits [EvLruKeys;
              EvLogWarn "action[EvictVolumeCache] evict volume finish"] w).
Proof.
  intros w evictVol H. unfold EvictVolumeCache. run.
  rewrite evictVolumeLoop_no_hit
    by (now apply no_key_matches_a_name_with_the_separator).
  simpl. unfold emits; simpl. now rewrite <- app_assoc.
Qed.

Lemma evictInodeLoop_spec (prefix : string) :
  forall (keys : list string) (w : World L) (failedKeys : list string),
    let hit := filter (fun k => String.eqb prefix (firstField "#" k)) keys in
    exists w' : World L,
      evictInodeLoop prefix keys failedKeys w
      = (Ok (failedKeys ++ fst (evictEach hit (lruCache (engine w))))%list,
         w')
      /\ lruCache (engine w') = snd (evictEach hit (lruCache (engine w)))
      /\ trace w'
         = (trace w ++ evictEachTrace hit (lruCache (engine w)))%list
      /\ os w' = os w
      /\ cachePrepareTaskCh (engine w') = cachePrepareTaskCh (engine w).
Proof.
  induction keys as [|k keys IH]; intros w failedKeys; simpl.
  - exists w. unfold ret. rewrite !app_nil_r. auto.
  - destruct (String.eqb prefix (firstField "#" k)) eqn:E.
    + run. destruct (lru_Evict k (lruCache (engine w))) as [[ok l1] evs] eqn:Ev.
      simpl.
      match goal with
      | |- context [evictInodeLoop prefix keys ?f ?w1] =>
          destruct (IH w1 f) as (w' & R & Hl & Ht & Ho & Hq)
      end.
      simpl in *. exists w'. rewrite R, Hl, Ht, Ho, Hq.
      destruct (evictEach _ l1) as [failed l2]. simpl.
      repeat split.
      * destruct ok; simpl; [reflexivity|]. now rewrite <- app_assoc.
      * rewrite <- !app_assoc. reflexivity.
    + apply IH.
Qed.

Lemma evictInodeLoop_no_hit (prefix : string) :
  forall (keys : list string) (w : World L) (failedKeys : list string),
    filter (fun k => String.eqb prefix (firstField "#" k)) keys = [] ->
    evictInodeLoop prefix keys failedKeys w = (Ok failedKeys, w).
Proof.
  induction keys as [|k keys IH]; intros w failedKeys H; simpl in *.
  - reflexivity.
  - destruct (String.eqb prefix (firstField "#" k)); [discriminate|].
    now apply IH.
Qed.

(** X4: [EvictInodeCache] takes one snapshot of the keys and hands to
    the LRU's [Evict], in order and each under the exclusive lock of its
    key, exactly the keys whose text before the first hash sign is
    [vol/inode]; it returns those of them that [Evict] did not remove.
    No other key is handed to [Evict], and neither the machine nor the
    prepare queue changes. *)
Theorem EvictInodeCache_evicts_the_inode :
  forall (w : World L) (vol : string) (inode : N),
    let l := lruCache (engine w) in
    let hit := filter (fun k => String.eqb (vol ++ "/" ++ FormatUint inode)
                                           (firstField "#" k))
                      (lru_Keys l) in
    let r := EvictInodeCache vol inode w in
    fst r = Ok (fst (evictEach hit l))
    /\ incl (fst (evictEach hit l)) hit
    /\ lruCache (engine (snd r)) = snd (evictEach hit l)
    /\ trace (snd r)
       = (trace w ++ EvLruKeys :: evictEachTrace hit l
            ++ [EvLogWarn "action[EvictInodeCache] evict volume inode finish"])%list
    /\ os (snd r) = os w
    /\ cachePrepareTaskCh (engine (snd r)) = cachePrepareTaskCh (engine w).
Proof.
  intros w vol inode l hit r. subst r. unfold EvictInodeCache. run.
  destruct (evictInodeLoop_spec (vol ++ "/" ++ FormatUint inode)
              (lru_Keys (lruCache (engine w))) (emits [EvLruKeys] w) [])
    as (w' & R & Hl & Ht & Ho & Hq).
  simpl in *. rewrite R. simpl. fold l in Hl, Ht |- *. fold hit in Hl, Ht |- *.
  repeat split; auto.
  - apply evictEach_incl.
  - rewrite Ht, <- !app_assoc. reflexivity.
Qed.

(** X6: the blocks of a volume whose name holds a hash sign are never
    evicted by [EvictInodeCache]: the text before a key's first hash
    sign holds none, so no key matches [vol/inode], the LRU is left
    alone and the result is empty, whatever the cache holds. *)
Theorem EvictInodeCache_volume_with_hash :
  forall (w : World L) (vol : string) (inode : N),
    occurs "#" vol = true ->
    EvictInodeCache vol inode w
    = (Ok [],
       emits [EvLruKeys;
              EvLogWarn "action[EvictInodeCache] evict volume inode finish"]
             w).
Proof.
  intros w vol inode H. unfold EvictInodeCache. run.
  rewrite evictInodeLoop_no_hit.
  - simpl. unfold emits; simpl. now rewrite <- app_assoc.
  - apply no_key_matches_a_name_with_the_separator.
    rewrite occurs_app, H. reflexivity.
Qed.

End EvictionFacts.


(** ** Locks and admission *)

Section AdmissionFacts.

Context {L : Type} {LRU : LruCache L} {X : Externals}.

Ltac run :=
  unfold asCacheBlock, monitorFunc, callGet, callPeek, callSet, callEvict,
    callKeys, callClose, syscall, query, getEngine, modEngine, defer,
    deferRecover, emit, panic, bind, ret; simpl.

(** X7: whatever the checksum of a key is, [getCacheLock] indexes one
    of the four locks that [initCacheLock] allocates. *)
Theorem getCacheLock_in_range :
  forall key : string, 0 <= getCacheLock key <= 3.
Proof.
  intros key. unfold getCacheLock.
  change 3 with (Z.ones 2) at 1 2.
  rewrite Z.land_ones by lia.
  pose proof (Z.mod_pos_bound (Checksum key) (2 ^ 2) ltac:(lia)) as B.
  change (2 ^ 2) with 4 in *. change (Z.ones 2) with 3. lia.
Qed.

(** The whole outcome of a call of [createCacheBlock] that finds no
    block under the key, from what [Set] and [initCacheStore] answer. *)
Lemma createCacheBlock_miss_eq :
  forall (w : World L) (volume : string) (inode fixedOffset version : N)
         (ttl : Z) (allocSize : N) (v : Value)
         (n : Z) (serr ierr : error) (l : L) (evs : list Event) (o' : OS),
    let key := GenCacheBlockKey volume inode fixedOffset version in
    let lock := getCacheLock key in
    let cb := {| blockAddr := nextAddr w; blockRoot := rootPath (engine w);
                 blockVolume := volume; blockInode := inode;
                 blockOffset := fixedOffset; blockVersion := version;
                 blockAllocSize := allocSize |} in
    let d := wrap64 ((if ttl <=? 0 then DefaultCacheTTLSec else ttl) * Second) in
    let inserted := ([EvLock lock; EvLruPeek key; EvNewCacheBlock cb;
                      EvLruSet key (VBlock cb) d] ++ evs ++ [EvUnlock lock])%list in
    allocSize <> 0%N ->
    lru_Peek key (now w) (lruCache (engine w)) = Ok (v, false) ->
    lru_Set key (VBlock cb) d (now w) (lruCache (engine w))
    = ((n, serr), l, evs) ->
    initCacheStore cb (os w) = (ierr, o') ->
    createCacheBlock volume inode fixedOffset version ttl allocSize w
    = (Ok (Some cb, match serr with Some e => Some e | None => ierr end),
       {| engine := setLru (engine w) l;
          os := match serr with Some _ => os w | None => o' end;
          now := now w;
          nextAddr := S (nextAddr w);
          trace := (trace w ++ inserted
                    ++ match serr with
                       | Some _ => []
                       | None =>
                           EvInitCacheStore cb
                           :: (if 0 <? n
                               then [EvMonitor volume proto.ActionCacheEvict
                                       (uint64_of_int n)]
                               else [])
                       end)%list |}).
Proof.
  intros w volume inode fixedOffset version ttl allocSize v n serr ierr l evs
         o' key lock cb d inserted Hz Hmiss Hset Hinit.
  subst inserted. unfold createCacheBlock.
  apply N.eqb_neq in Hz. rewrite Hz. run.
  fold key. fold lock. unfold key in Hmiss. fold key in Hmiss.
  rewrite Hmiss. simpl. unfold NewCacheBlock. simpl. fold cb. fold d.
  rewrite Hset. simpl.
  destruct serr as [e|]; simpl.
  - unfold setEngine, emits; simpl. rewrite app_nil_r, <- !app_assoc.
    reflexivity.
  - unfold callInitCacheStore. run. rewrite Hinit. simpl.
    destruct (0 <? n); simpl; unfold setEngine, emits, setOS; simpl;
      rewrite <- !app_assoc; reflexivity.
Qed.

(** X9: a call of [createCacheBlock] that finds no block under the key.
    The new block goes to [Set] under the key's exclusive lock, and the
    lock is released right after [Set], before the store is
    initialised.  When [Set] fails the store is not initialised and the
    monitor is not called; when [Set] succeeds [initCacheStore] runs
    once, and the monitor is then called with [ActionCacheEvict] and
    the evicted bytes exactly when [Set] reported more than zero, also
    when the initialisation failed.  The new block is returned in every
    case, with the error of [Set] or else of [initCacheStore]. *)
Theorem createCacheBlock_miss_outcomes :
  forall (w : World L) (volume : string) (inode fixedOffset version : N)
         (ttl : Z) (allocSize : N) (v : Value)
         (n : Z) (serr ierr : error) (l : L) (evs : list Event) (o' : OS),
    let key := GenCacheBlockKey volume inode fixedOffset version in
    let lock := getCacheLock key in
    let cb := {| blockAddr := nextAddr w; blockRoot := rootPath (engine w);
                 blockVolume := volume; blockInode := inode;
                 blockOffset := fixedOffset; blockVersion := version;
                 blockAllocSize := allocSize |} in
    let d := wrap64 ((if ttl <=? 0 then DefaultCacheTTLSec else ttl) * Second) in
    let r := createCacheBlock volume inode fixedOffset version ttl allocSize w in
    let inserted := ([EvLock lock; EvLruPeek key; EvNewCacheBlock cb;
                      EvLruSet key (VBlock cb) d] ++ evs ++ [EvUnlock lock])%list in
    allocSize <> 0%N ->
    lru_Peek key (now w) (lruCache (engine w)) = Ok (v, false) ->
    lru_Set key (VBlock cb) d (now w) (lruCache (engine w))
    = ((n, serr), l, evs) ->
    initCacheStore cb (os w) = (ierr, o') ->
    lruCache (engine (snd r)) = l
    /\ nextAddr (snd r) = S (nextAddr w)
    /\ (forall e : Err, serr = Some e ->
        fst r = Ok (Some cb, Some e)
        /\ trace (snd r) = (trace w ++ inserted)%list
        /\ os (snd r) = os w)
    /\ (serr = None ->
        fst r = Ok (Some cb, ierr)
        /\ trace (snd r)
           = (trace w ++ inserted ++ EvInitCacheStore cb
                :: (if 0 <? n
                    then [EvMonitor volume proto.ActionCacheEvict
                            (uint64_of_int n)]
                    else []))%list
        /\ os (snd r) = o').
Proof.
  intros w volume inode fixedOffset version ttl allocSize v n serr ierr l evs
         o' key lock cb d r inserted Hz Hmiss Hset Hinit.
  subst r.
  rewrite (createCacheBlock_miss_eq w volume inode fixedOffset version ttl
             allocSize v n serr ierr l evs o' Hz Hmiss Hset Hinit).
  simpl. fold key lock cb d inserted.
  split; [reflexivity|]. split; [reflexivity|]. split.
  - intros e ->. rewrite app_nil_r. auto.
  - intros ->. auto.
Qed.

Lemma createCacheBlock_nil_error_has_block :
  forall (w w' : World L) (volume : string) (inode fixedOffset version : N)
         (ttl : Z) (allocSize : N) (b : option CacheBlock),
    createCacheBlock volume inode fixedOffset version ttl allocSize w
    = (Ok (b, None), w') ->
    exists cb : CacheBlock, b = Some cb.
Proof.
  intros w w' volume inode fixedOffset version ttl allocSize b.
  unfold createCacheBlock.
  destruct (allocSize =? 0)%N; [intros [=]|]. run.
  destruct (lru_Peek _ _ _) as [[v [|]]|p]; simpl;
    [destruct v; intros [=]; eauto | | intros [=]].
  unfold NewCacheBlock. simpl.
  match goal with
  | |- context [lru_Set ?k ?b ?d ?t ?c] =>
      destruct (lru_Set k b d t c) as [[[n [e|]] l] evs]
  end; simpl; [intros [=]|].
  unfold callInitCacheStore. run.
  match goal with
  | |- context [initCacheStore ?b ?o] =>
      destruct (initCacheStore b o) as [ierr o']
  end; simpl.
  destruct (0 <? n); intros [=]; eauto.
Qed.

(** X8: [CreateBlock] never returns a block together with an error, and
    never a nil block with a nil error: a call that returns gives either
    a block and nil, or nil and an error. *)
Theorem CreateBlock_block_or_error :
  forall (w w' : World L) (req : proto.CacheRequest)
         (b : option CacheBlock) (err : error),
    CreateBlock req w = (Ok (b, err), w') ->
    (exists cb : CacheBlock, b = Some cb /\ err = None)
    \/ (b = None /\ exists e : Err, err = Some e).
Proof.
  intros w w' req b err. unfold CreateBlock.
  destruct (List.length (proto.Sources req) =? 0)%nat.
  { intros [= <- <-]. right. eauto. }
  destruct (computeAllocSize (proto.Sources req)) as [alloc [e|]].
  { intros [= <- <-]. right. eauto. }
  unfold bind at 1.
  destruct (createCacheBlock _ _ _ _ _ _ w) as [[[b0 [e0|]]|r] w1] eqn:C.
  - unfold deleteCacheBlock. run.
    destruct (lru_Evict _ _) as [[ok l] evs]. simpl.
    intros [= <- <-]. right. eauto.
  - destruct (createCacheBlock_nil_error_has_block _ _ _ _ _ _ _ _ _ C)
      as [cb ->].
    unfold ret. intros [= <- <-]. left. eauto.
  - discriminate.
Qed.

(** X10: when the store of a freshly inserted block cannot be
    initialised, [CreateBlock] undoes the insertion: after
    [initCacheStore] has failed it calls the LRU's [Evict] on the key
    and returns no block, with the error of [initCacheStore]. *)
Theorem CreateBlock_evicts_after_failed_init :
  forall (w : World L) (req : proto.CacheRequest) (allocSize : N) (v : Value)
         (n : Z) (l l2 : L) (evs evs2 : list Event) (e : Err) (o' : OS)
         (ok : bool),
    let key := GenCacheBlockKey (proto.Volume req) (proto.Inode req)
                 (proto.FixedFileOffset req) (proto.Version req) in
    let lock := getCacheLock key in
    let cb := {| blockAddr := nextAddr w; blockRoot := rootPath (engine w);
                 blockVolume := proto.Volume req;
                 blockInode := proto.Inode req;
                 blockOffset := proto.FixedFileOffset req;
                 blockVersion := proto.Version req;
                 blockAllocSize := allocSize |} in
    let d := wrap64 ((if proto.TTL req <=? 0 then DefaultCacheTTLSec
                      else proto.TTL req) * Second) in
    let r := CreateBlock req w in
    proto.Sources req <> [] ->
    computeAllocSize (proto.Sources req) = (allocSize, None) ->
    allocSize <> 0%N ->
    lru_Peek key (now w) (lruCache (engine w)) = Ok (v, false) ->
    lru_Set key (VBlock cb) d (now w) (lruCache (engine w))
    = ((n, None), l, evs) ->
    initCacheStore cb (os w) = (Some e, o') ->
    lru_Evict key l = (ok, l2, evs2) ->
    fst r = Ok (None, Some e)
    /\ lruCache (engine (snd r)) = l2
    /\ trace (snd r)
       = (trace w
          ++ ([EvLock lock; EvLruPeek key; EvNewCacheBlock cb;
               EvLruSet key (VBlock cb) d] ++ evs ++ [EvUnlock lock])
          ++ EvInitCacheStore cb
          :: (if 0 <? n
              then [EvMonitor (proto.Volume req) proto.ActionCacheEvict
                      (uint64_of_int n)]
              else [])
          ++ EvLruEvict key :: evs2)%list.
Proof.
  intros w req allocSize v n l l2 evs evs2 e o' ok key lock cb d r
         Hs Hc Hz Hmiss Hset Hinit Hev.
  assert (E : exists w' : World L,
             r = (Ok (None, Some e), w')
             /\ lruCache (engine w') = l2
             /\ trace w'
                = ((trace w
                    ++ ([EvLock lock; EvLruPeek key; EvNewCacheBlock cb;
                         EvLruSet key (VBlock cb) d] ++ evs ++ [EvUnlock lock])
                    ++ EvInitCacheStore cb
                    :: (if 0 <? n
                        then [EvMonitor (proto.Volume req)
                                proto.ActionCacheEvict (uint64_of_int n)]
                        else []))
                   ++ EvLruEvict key :: evs2)%list).
  { subst r. unfold CreateBlock.
    destruct (proto.Sources req) as [|src rest] eqn:E; [congruence|].
    simpl. rewrite Hc. unfold bind at 1.
    rewrite (createCacheBlock_miss_eq w (proto.Volume req) (proto.Inode req)
               (proto.FixedFileOffset req) (proto.Version req) (proto.TTL req)
               allocSize v n None (Some e) l evs o' Hz Hmiss Hset Hinit).
    unfold deleteCacheBlock. run. fold key. rewrite Hev. simpl.
    eexists. split; [reflexivity|]. split; reflexivity. }
  destruct E as (w' & -> & Hl & Ht). simpl.
  split; [reflexivity|]. split; [exact Hl|].
  rewrite Ht. destruct (0 <? n); simpl; rewrite <- ?app_assoc; simpl;
    rewrite <- ?app_assoc; reflexivity.
Qed.

End AdmissionFacts.


(** ** Lookup, the prepare queue and the workers *)

Section PipelineFacts.

Context {L : Type} {LRU : LruCache L} {X : Externals}.

Ltac run :=
  unfold asCacheBlock, monitorFunc, callGet, callPeek, callSet, callEvict,
    callKeys, callClose, syscall, query, getEngine, modEngine, defer,
    deferRecover, emit, panic, bind, ret; simpl.

Lemma createCacheBlock_keeps_queue :
  forall (w : World L) (volume : string) (inode fixedOffset version : N)
         (ttl : Z) (allocSize : N),
    cachePrepareTaskCh
      (engine
         (snd (createCacheBlock volume inode fixedOffset version ttl
                 allocSize w)))
    = cachePrepareTaskCh (engine w).
Proof.
  intros. unfold createCacheBlock.
  destruct (allocSize =? 0)%N; [reflexivity|]. run.
  destruct (lru_Peek _ _ _) as [[v [|]]|p]; simpl;
    [destruct v; reflexivity | | reflexivity].
  unfold NewCacheBlock. simpl.
  match goal with
  | |- context [lru_Set ?k ?b ?d ?t ?c] =>
      destruct (lru_Set k b d t c) as [[[n [e|]] l] evs]
  end; simpl; [reflexivity|].
  unfold callInitCacheStore. run.
  match goal with
  | |- context [initCacheStore ?b ?o] =>
      destruct (initCacheStore b o) as [ierr o']
  end; simpl.
  destruct (0 <? n); reflexivity.
Qed.

Lemma CreateBlock_keeps_queue :
  forall (w : World L) (req : proto.CacheRequest),
    cachePrepareTaskCh (engine (snd (CreateBlock req w)))
    = cachePrepareTaskCh (engine w).
Proof.
  intros w req. unfold CreateBlock.
  destruct (List.length (proto.Sources req) =? 0)%nat; [reflexivity|].
  destruct (computeAllocSize (proto.Sources req)) as [alloc [e|]];
    [reflexivity|].
  unfold bind at 1.
  pose proof (createCacheBlock_keeps_queue w (proto.Volume req)
                (proto.Inode req) (proto.FixedFileOffset req)
                (proto.Version req) (proto.TTL req) alloc) as Q.
  destruct (createCacheBlock _ _ _ _ _ _ w) as [[[b0 [e0|]]|r] w1];
    simpl in *; try exact Q.
  unfold deleteCacheBlock. run.
  destruct (lru_Evict _ _) as [[ok l] evs]. simpl. exact Q.
Qed.

(** X12: [PrepareCache] leaves the prepare queue as it is or appends the
    one task of the request at its end.  It appends nothing unless it
    returns nil, and a queue within its capacity of 1024 stays within
    it. *)
Theorem PrepareCache_queue :
  forall (w : World L) (reqID : Z) (req : proto.CacheRequest),
    let r := PrepareCache reqID req w in
    let q := cachePrepareTaskCh (engine w) in
    let q' := cachePrepareTaskCh (engine (snd r)) in
    (q' = q \/ q' = (q ++ [{| request := req; reqID := reqID |}])%list)
    /\ (fst r <> Ok None -> q' = q)
    /\ ((List.length q <= prepareTaskChCap)%nat ->
        (List.length q' <= prepareTaskChCap)%nat).
Proof.
  intros w reqID req r q q'. subst r q q'.
  pose proof (CreateBlock_keeps_queue w req) as Q.
  assert (E : PrepareCache reqID req w
              = match CreateBlock req w with
                | (Ok (_, Some e), w1) => (Ok (Some e), w1)
                | (Ok (_, None), w1) =>
                    (Ok None, snd (SendToPrepareTaskCh reqID req w1))
                | (Panicked p, w1) => (Panicked p, w1)
                end).
  { unfold PrepareCache. unfold bind at 1.
    destruct (CreateBlock req w) as [[[b [e|]]|p] w1]; try reflexivity.
    unfold bind, ret. rewrite (SendToPrepareTaskCh_returns w1 reqID req).
    reflexivity. }
  rewrite E. clear E.
  destruct (CreateBlock req w) as [[[b [e|]]|p] w1]; simpl in *.
  - rewrite Q. split; [now left|]. split; auto.
  - rewrite (SendToPrepareTaskCh_returns w1 reqID req). simpl.
    destruct (List.length (cachePrepareTaskCh (engine w1)) <? prepareTaskChCap)%nat
      eqn:Room; simpl; rewrite Q in *.
    + apply Nat.ltb_lt in Room. split; [now right|].
      split; [intros H; now elim H|].
      intros _. rewrite length_app. simpl. lia.
    + split; [now left|]. split; auto.
  - rewrite Q. split; [now left|]. split; auto.
Qed.

(** X17: [PeekCacheBlock] always returns: a panic of the lookup or of
    the type assertion never reaches the caller.  It returns the block
    and nil when the lookup finds a block, nil and an error when the
    lookup finds nothing.  On every path the shared lock of the key is
    released right after the lookup, before a recovered panic is
    logged; no field of the engine and nothing on the machine
    changes. *)
Theorem PeekCacheBlock_outcomes :
  forall (w : World L) (key : string),
    let r := PeekCacheBlock key w in
    (exists res : option CacheBlock * error, fst r = Ok res)
    /\ (exists logs : list Event,
           trace (snd r)
           = (trace w ++ [EvRLock (getCacheLock key); EvLruPeek key;
                          EvRUnlock (getCacheLock key)] ++ logs)%list)
    /\ engine (snd r) = engine w
    /\ os (snd r) = os w
    /\ (forall cb : CacheBlock,
           lru_Peek key (now w) (lruCache (engine w)) = Ok (VBlock cb, true) ->
           fst r = Ok (Some cb, None))
    /\ (forall v : Value,
           lru_Peek key (now w) (lruCache (engine w)) = Ok (v, false) ->
           fst r = Ok (None, Some (ErrNew "cache block peek failed"))).
Proof.
  intros w key r. subst r. unfold PeekCacheBlock. run.
  destruct (lru_Peek key (now w) (lruCache (engine w)))
    as [[v [|]]|p]; simpl.
  - destruct v; simpl;
      (split; [eauto|]);
      (split; [eexists; rewrite <- ?app_assoc; simpl; reflexivity|]);
      (split; [reflexivity|]); (split; [reflexivity|]);
      split; intros ? [=]; subst; reflexivity.
  - split; [eauto|].
    split; [exists []; rewrite <- ?app_assoc; reflexivity|].
    split; [reflexivity|]. split; [reflexivity|].
    split; intros ? [=]; subst; reflexivity.
  - split; [eauto|].
    split; [eexists; rewrite <- ?app_assoc; simpl; reflexivity|].
    split; [reflexivity|]. split; [reflexivity|].
    split; intros ? [=].
Qed.

(** X18: [GetCacheBlockForRead] releases the shared lock it takes on
    every path: the events of a call begin with the [RLock] and end with
    the [RUnlock] of the key's lock, also when the call panics.  It
    panics exactly when [Get] answers a nil error with a value that is
    no cache block.  The machine and the prepare queue do not change. *)
Theorem GetCacheBlockForRead_releases_lock :
  forall (w : World L) (volume : string) (inode offset version size : N),
    let key := GenCacheBlockKey volume inode offset version in
    let r := GetCacheBlockForRead volume inode offset version size w in
    (exists mid : list Event,
        trace (snd r)
        = (trace w ++ EvRLock (getCacheLock key) :: mid
             ++ [EvRUnlock (getCacheLock key)])%list)
    /\ os (snd r) = os w
    /\ cachePrepareTaskCh (engine (snd r)) = cachePrepareTaskCh (engine w)
    /\ ((exists p : string, fst r = Panicked p)
        <-> (fst (fst (lru_Get key (now w) (lruCache (engine w))))
             = (VNil, None)
             \/ exists tag : nat,
                 fst (fst (lru_Get key (now w) (lruCache (engine w))))
                 = (VOther tag, None))).
Proof.
  intros w volume inode offset version size key r. subst r.
  unfold GetCacheBlockForRead. run. fold key.
  destruct (lru_Get key (now w) (lruCache (engine w)))
    as [[[v [e|]] l] evs]; simpl.
  - destruct (isCacheExpireError e); simpl.
    + split; [|split; [reflexivity|split; [reflexivity|]]].
      * exists (EvLruGet key :: evs
                ++ [EvMonitor volume proto.ActionCacheExpire size])%list.
        rewrite <- !app_assoc. simpl. rewrite <- !app_assoc. reflexivity.
      * split; [intros [p [=]] | intros [[=]|[tag [=]]]].
    + split; [|split; [reflexivity|split; [reflexivity|]]].
      * exists (EvLruGet key :: evs). rewrite <- !app_assoc. reflexivity.
      * split; [intros [p [=]] | intros [[=]|[tag [=]]]].
  - destruct v as [|cb|tag]; simpl;
      (split; [exists (EvLruGet key :: evs); rewrite <- !app_assoc; reflexivity|]);
      (split; [reflexivity|split; [reflexivity|]]).
    + split; eauto.
    + split; [intros [p [=]] | intros [[=]|[tag [=]]]].
    + split; eauto.
Qed.

(** X19: when the lookup panics inside [createCacheBlock], the panic
    goes on to the caller with the key's exclusive lock taken and not
    released (the function defers no [Unlock]); [CreateBlock] and
    [PrepareCache] pass the panic on as it is: nothing is evicted and no
    task is queued. *)
Theorem lookup_panic_leaves_the_lock_held :
  forall (w : World L) (reqID : Z) (req : proto.CacheRequest) (allocSize : N)
         (p : string),
    let key := GenCacheBlockKey (proto.Volume req) (proto.Inode req)
                 (proto.FixedFileOffset req) (proto.Version req) in
    let held := emits [EvLock (getCacheLock key); EvLruPeek key] w in
    proto.Sources req <> [] ->
    computeAllocSize (proto.Sources req) = (allocSize, None) ->
    allocSize <> 0%N ->
    lru_Peek key (now w) (lruCache (engine w)) = Panicked p ->
    createCacheBlock (proto.Volume req) (proto.Inode req)
      (proto.FixedFileOffset req) (proto.Version req) (proto.TTL req)
      allocSize w = (Panicked p, held)
    /\ CreateBlock req w = (Panicked p, held)
    /\ PrepareCache reqID req w = (Panicked p, held).
Proof.
  intros w reqID req allocSize p key held Hs Hc Hz Hp.
  assert (C : createCacheBlock (proto.Volume req) (proto.Inode req)
                (proto.FixedFileOffset req) (proto.Version req) (proto.TTL req)
                allocSize w = (Panicked p, held)).
  { unfold createCacheBlock. apply N.eqb_neq in Hz. rewrite Hz. run.
    fold key. rewrite Hp. simpl. unfold held, emits; simpl.
    now rewrite <- app_assoc. }
  assert (B : CreateBlock req w = (Panicked p, held)).
  { unfold CreateBlock.
    destruct (proto.Sources req) as [|src rest] eqn:E; [congruence|].
    simpl. rewrite Hc. unfold bind at 1. rewrite C. reflexivity. }
  split; [exact C|]. split; [exact B|].
  unfold PrepareCache. unfold bind at 1. rewrite B. reflexivity.
Qed.

(** X13: what a prepare worker does with a task.  When the lookup finds
    the block of the request, the worker calls [InitOnce] on it with the
    request's sources; when it finds nothing, the worker logs a warning
    and goes on; when the lookup panics, or finds a value that is no
    cache block, [PeekCacheBlock] hands back a nil block with a nil
    error and the worker calls [InitOnce] on the nil block.  The worker
    changes no field of the engine and nothing on the machine. *)
Theorem handlePrepareTask_outcomes :
  forall (w : World L) (task : cachePrepareTask),
    let key := GenCacheBlockKey (proto.Volume (request task))
                 (proto.Inode (request task))
                 (proto.FixedFileOffset (request task))
                 (proto.Version (request task)) in
    let r := handlePrepareTask task w in
    engine (snd r) = engine w
    /\ os (snd r) = os w
    /\ (forall cb : CacheBlock,
           lru_Peek key (now w) (lruCache (engine w)) = Ok (VBlock cb, true) ->
           fst r = Ok (WorkerInitOnce (Some cb) (proto.Sources (request task))))
    /\ (forall v : Value,
           lru_Peek key (now w) (lruCache (engine w)) = Ok (v, false) ->
           fst r = Ok WorkerContinue)
    /\ (forall p : string,
           lru_Peek key (now w) (lruCache (engine w)) = Panicked p ->
           fst r = Ok (WorkerInitOnce None (proto.Sources (request task))))
    /\ (forall v : Value,
           lru_Peek key (now w) (lruCache (engine w)) = Ok (v, true) ->
           (forall cb : CacheBlock, v <> VBlock cb) ->
           fst r = Ok (WorkerInitOnce None (proto.Sources (request task)))).
Proof.
  intros w task key r. subst r. unfold handlePrepareTask, PeekCacheBlock.
  run. fold key.
  destruct (lru_Peek key (now w) (lruCache (engine w)))
    as [[v [|]]|p]; simpl.
  - destruct v as [|cb|tag]; simpl;
      (split; [reflexivity|]); (split; [reflexivity|]);
      (split; [intros ? [=]; subst; reflexivity|]);
      (split; [intros ? [=]|]);
      (split; [intros ? [=]|]);
      intros v [= <-] Hv; try reflexivity.
    exfalso. exact (Hv cb eq_refl).
  - split; [reflexivity|]. split; [reflexivity|].
    split; [intros ? [=]|]. split; [intros ? [=]; reflexivity|].
    split; [intros ? [=]|]. intros ? [=].
  - split; [reflexivity|]. split; [reflexivity|].
    split; [intros ? [=]|]. split; [intros ? [=]|].
    split; [intros ? [=]; reflexivity|]. intros ? [=].
Qed.

End PipelineFacts.

(** ** The backing store under faults *)

Section StoreFacts.

Context {L : Type} {LRU : LruCache L} {X : Externals}.

Ltac run :=
  unfold asCacheBlock, monitorFunc, callGet, callPeek, callSet, callEvict,
    callKeys, callClose, syscall, query, getEngine, modEngine, defer,
    deferRecover, emit, panic, bind, ret; simpl.

(** Unfolds the mount protocol down to the system calls. *)
Ltac calls :=
  unfold NewCacheEngine, doMount, andAlso, initTmpfs, createInitFile,
    initFileExists, Umount;
  unfold MkdirAll, Stat, StatFile, ReadDir, CreateFile, tmpfs.IsMountPoint,
    tmpfs.IsTmpfs, tmpfs.MountTmpfs, tmpfs.Umount;
  run.

(** Splits on the next test or system-call result the goal looks at. *)
Ltac branch :=
  match goal with
  | |- context [match ?x with _ => _ end] =>
      lazymatch x with
      | context [match _ with _ => _ end] => fail
      | _ => destruct x eqn:?; simpl
      end
  end.

(** X14: [doMount] refuses to touch what is not its own, whatever
    system calls fail.  When a file system that is no tmpfs is mounted on
    the root path, or nothing is mounted and the directory holds a name,
    [doMount] returns an error and has changed nothing: it has neither
    mounted nor unmounted nor created a file. *)
Theorem doMount_refuses_foreign_content :
  forall (w : World L),
    ((exists (es : list string) (m : Mount) (ms : list Mount),
         root (os w) = Present es (m :: ms) /\ mType m = OtherFs)
     \/ (exists (e : string) (es : list string),
            root (os w) = Present (e :: es) [])) ->
    exists err : Err, doMount w = (Ok (Some err), w).
Proof.
  intros w H. destruct w as [e [rt rs f] n a t]. simpl in *.
  destruct H as [(es & m & ms & -> & Ht) | (x & es & ->)]; calls.
  - rewrite ?Ht. repeat (first [rewrite Ht; simpl | branch]);
      eexists; reflexivity.
  - repeat branch; eexists; reflexivity.
Qed.

(** What a call of [NewCacheEngine] that returns a nil error has done,
    whatever system calls fail along the way. *)
Lemma NewCacheEngine_ok_inv :
  forall (w0 w' : World L) (path : string) (total maxAlloc cap expire : Z)
         (b : bool),
    NewCacheEngine path total maxAlloc cap expire w0 = (Ok (b, None), w') ->
    b = true
    /\ (exists (es : list string) (ms : list Mount),
           root (os w')
           = Present es ({| mType := Tmpfs; mStat := mStat (tmpfs.fresh total);
                            mEntries := [InitFileName] |} :: ms)
           /\ (root (os w0) = Absent -> es = [] /\ ms = [])
           /\ (forall (es0 : list string) (ms0 : list Mount),
                  root (os w0) = Present es0 ms0 ->
                  es = es0 /\ (ms = ms0 \/ ms = tl ms0)))
    /\ engine w'
       = {| rootPath := path; cachePrepareTaskCh := [];
            lruCache := NewCache cap maxAlloc expire;
            closeC := ChanOpen; closed := false;
            config := {| MaxAlloc := maxAlloc; Total := total;
                         Capacity := cap |} |}
    /\ failing (os w') = failing (os w0)
    /\ now w' = now w0.
Proof.
  intros w0 w' path total maxAlloc cap expire b.
  destruct w0 as [e [rt rs f] n a t]. simpl. calls.
  repeat branch; intros [= <- <-]; simpl;
    (split; [reflexivity|]);
    (split; [|split; [reflexivity|split; reflexivity]]);
    do 2 eexists; (split; [reflexivity|]);
    (split; [intros Hr; first [discriminate Hr | auto]
            |intros es0 ms0 Hr;
             first [discriminate Hr | injection Hr as <- <-; simpl; auto]]).
Qed.

(** X15: what a successful [NewCacheEngine] has established, whatever
    system calls fail along the way.  When it returns a nil error, the
    engine pointer is not nil, the latest mount on the root path is a
    fresh tmpfs of the configured total size that holds the init file
    and nothing else, the prepare queue is empty, the LRU is the one
    [NewCache] built from the capacity, the allocation limit and the
    expiry time, the close channel is open and the engine is not
    closed. *)
Theorem NewCacheEngine_success_postcondition :
  forall (w0 w' : World L) (path : string) (total maxAlloc cap expire : Z)
         (b : bool),
    NewCacheEngine path total maxAlloc cap expire w0 = (Ok (b, None), w') ->
    b = true
    /\ (exists (es : list string) (ms : list Mount),
           root (os w')
           = Present es ({| mType := Tmpfs; mStat := mStat (tmpfs.fresh total);
                            mEntries := [InitFileName] |} :: ms))
    /\ engine w'
       = {| rootPath := path; cachePrepareTaskCh := [];
            lruCache := NewCache cap maxAlloc expire;
            closeC := ChanOpen; closed := false;
            config := {| MaxAlloc := maxAlloc; Total := total;
                         Capacity := cap |} |}.
Proof.
  intros w0 w' path total maxAlloc cap expire b H.
  destruct (NewCacheEngine_ok_inv _ _ _ _ _ _ _ _ H)
    as (Hb & (es & ms & Hr & _) & He & _).
  split; [exact Hb|]. split; [eauto | exact He].
Qed.

(** X21: [Stop] undoes the mount of [NewCacheEngine].  On an engine
    that [NewCacheEngine] has returned with a nil error, when the LRU's
    [Close] returns nil and unmounting does not fail, [Stop] returns nil,
    marks the engine closed with its close channel closed, and takes the
    engine's tmpfs off the root path: what is left there is the
    directory as it was before the start, with the mounts the start
    found, less the stale store that the start replaced. *)
Theorem Stop_undoes_the_mount_of_NewCacheEngine :
  forall (w0 w1 : World L) (path : string) (total maxAlloc cap expire : Z)
         (b : bool) (l : L) (evs : list Event),
    NewCacheEngine path total maxAlloc cap expire w0 = (Ok (b, None), w1) ->
    lru_Close (NewCache cap maxAlloc expire) = (None, l, evs) ->
    failing (os w0) ScUmount = false ->
    exists (es : list string) (ms : list Mount),
      fst (Stop w1) = Ok None
      /\ root (os (snd (Stop w1))) = Present es ms
      /\ (root (os w0) = Absent -> es = [] /\ ms = [])
      /\ (forall (es0 : list string) (ms0 : list Mount),
             root (os w0) = Present es0 ms0 ->
             es = es0 /\ (ms = ms0 \/ ms = tl ms0))
      /\ closeC (engine (snd (Stop w1))) = ChanClosed
      /\ closed (engine (snd (Stop w1))) = true
      /\ lruCache (engine (snd (Stop w1))) = l.
Proof.
  intros w0 w1 path total maxAlloc cap expire b l evs H Hc Hu.
  destruct (NewCacheEngine_ok_inv _ _ _ _ _ _ _ _ H)
    as (_ & (es & ms & Hr & Ha & Hp) & He & Hf & _).
  exists es, ms.
  destruct w1 as [e1 [rt1 rs1 f1] n1 a1 t1]. simpl in *. subst e1 rt1 f1.
  unfold Stop, closeCloseC, Umount, sleep, tmpfs.Umount. run.
  rewrite Hc. simpl. rewrite Hu. simpl.
  split; [reflexivity|]. split; [reflexivity|].
  split; [exact Ha|]. split; [exact Hp|]. repeat split.
Qed.

(** X20: [doMount] unmounts nothing but a store of its own.  It calls
    [tmpfs.Umount] only when the latest mount on the root path is a
    tmpfs that holds the init file; and whatever it does, the names in
    the directory under the mounts and the mounts below the latest one
    stay as they are. *)
Theorem doMount_unmounts_only_its_own_store :
  forall (w : World L),
    exists evs : list Event,
      trace (snd (doMount w)) = (trace w ++ evs)%list
      /\ (In (EvUmount (rootPath (engine w))) evs ->
          exists (es : list string) (m : Mount) (ms : list Mount),
            root (os w) = Present es (m :: ms)
            /\ mType m = Tmpfs
            /\ hasName InitFileName (mEntries m) = true)
      /\ (forall (es : list string) (ms : list Mount),
             root (os w) = Present es ms ->
             exists ms' : list Mount,
               root (os (snd (doMount w))) = Present es ms'
               /\ (ms' = ms \/ tl ms' = ms \/ ms' = tl ms
                   \/ tl ms' = tl ms)).
Proof.
  intros w. destruct w as [e [rt rs f] n a t]. simpl. calls.
  repeat branch;
    eexists;
    (split; [first [rewrite <- ?app_assoc; simpl; reflexivity
                   | symmetry; apply app_nil_r]|]);
    (split; [simpl; intros H;
             repeat (destruct H as [H|H]; try discriminate H);
             try contradiction; eauto 10|]);
    intros es0 ms0 Hr;
    first [discriminate Hr | injection Hr as <- <- | rewrite Hr];
    eexists; (split; [reflexivity|]); simpl; auto.
Qed.

End StoreFacts.

(** ** More of the engine on the sample instances *)

(** A volume with a slash in its name: its block is in the cache and
    [EvictVolumeCache] of the volume leaves it there. *)
Lemma EvictVolumeCache_volume_with_slash_witness :
  lru.Keys (lruCache (engine (worldWith "a/b"))) = ["a/b/1#0#1"]
  /\ EvictVolumeCache (X := sampleExternals) "a/b" (worldWith "a/b")
     = (Ok [],
        emits [EvLruKeys;
               EvLogWarn "action[EvictVolumeCache] evict volume finish"]
              (worldWith "a/b")).
Proof.
  split; [reflexivity|].
  apply (EvictVolumeCache_volume_with_slash (X := sampleExternals)
           (worldWith "a/b") "a/b").
  reflexivity.
Defined.

(** A volume with a hash sign in its name: its block is in the cache and
    [EvictInodeCache] of its inode leaves it there. *)
Lemma EvictInodeCache_volume_with_hash_witness :
  lru.Keys (lruCache (engine (worldWith "a#b"))) = ["a#b/1#0#1"]
  /\ EvictInodeCache (X := sampleExternals) "a#b" 1 (worldWith "a#b")
     = (Ok [],
        emits [EvLruKeys;
               EvLogWarn "action[EvictInodeCache] evict volume inode finish"]
              (worldWith "a#b")).
Proof.
  split; [reflexivity|].
  apply (EvictInodeCache_volume_with_hash (X := sampleExternals)
           (worldWith "a#b") "a#b" 1).
  reflexivity.
Defined.

Lemma CreateBlock_block_or_error_witness :
  (exists cb : CacheBlock, Some sampleBlock = Some cb /\ @None Err = None)
  \/ (Some sampleBlock = None /\ exists e : Err, @None Err = Some e).
Proof.
  apply (CreateBlock_block_or_error (X := sampleExternals) startedWorld
           admittedWorld (sampleRequest 0 [sampleSource 65536])
           (Some sampleBlock) None).
  vm_compute. reflexivity.
Defined.

(** The first admission of the sample key: the block goes to [Set] with
    the default time to live, nothing is evicted, the store is
    initialised. *)
Lemma createCacheBlock_miss_outcomes_witness :
  fst (createCacheBlock (X := sampleExternals) "vol" 1 0 1 0 65536
         startedWorld)
  = Ok (Some sampleBlock, None)
  /\ trace (snd (createCacheBlock (X := sampleExternals) "vol" 1 0 1 0 65536
                   startedWorld))
     = (trace startedWorld
        ++ [EvLock 1; EvLruPeek "vol/1#0#1"; EvNewCacheBlock sampleBlock;
            EvLruSet "vol/1#0#1" (VBlock sampleBlock) (300 * Second);
            EvUnlock 1; EvInitCacheStore sampleBlock])%list.
Proof.
  assert (Miss : lru_Peek (GenCacheBlockKey "vol" 1 0 1) (now startedWorld)
                   (lruCache (engine startedWorld)) = Ok (VNil, false))
    by (vm_compute; reflexivity).
  assert (Set_ : lru_Set (GenCacheBlockKey "vol" 1 0 1) (VBlock sampleBlock)
                   (wrap64 ((if 0 <=? 0 then 300 else 0) * Second))
                   (now startedWorld) (lruCache (engine startedWorld))
                 = ((0, None), lruCache (engine admittedWorld), []))
    by (vm_compute; reflexivity).
  destruct (createCacheBlock_miss_outcomes (X := sampleExternals)
              startedWorld "vol" 1 0 1 0 65536 VNil 0 None None
              (lruCache (engine admittedWorld)) [] (os startedWorld)
              ltac:(discriminate) Miss Set_ eq_refl) as (_ & _ & _ & C).
  destruct (C eq_refl) as (A & B & _).
  split; [exact A | exact B].
Defined.

(** The store of the new block cannot be initialised: the block that
    went into the cache is evicted again. *)
Lemma CreateBlock_evicts_after_failed_init_witness :
  fst (CreateBlock (X := brokenStoreExternals)
         (sampleRequest 0 [sampleSource 65536]) startedWorld)
  = Ok (None, Some (ErrNew "no space left on device"))
  /\ lru.Keys
       (lruCache
          (engine
             (snd (CreateBlock (X := brokenStoreExternals)
                     (sampleRequest 0 [sampleSource 65536]) startedWorld))))
     = [].
Proof.
  assert (Miss : lru_Peek (GenCacheBlockKey "vol" 1 0 1) (now startedWorld)
                   (lruCache (engine startedWorld)) = Ok (VNil, false))
    by (vm_compute; reflexivity).
  assert (Set_ : lru_Set (GenCacheBlockKey "vol" 1 0 1) (VBlock sampleBlock)
                   (wrap64 ((if 0 <=? 0 then 300 else 0) * Second))
                   (now startedWorld) (lruCache (engine startedWorld))
                 = ((0, None), lruCache (engine admittedWorld), []))
    by (vm_compute; reflexivity).
  assert (Ev : lru_Evict (GenCacheBlockKey "vol" 1 0 1)
                 (lruCache (engine admittedWorld))
               = (true,
                  snd (fst (lru_Evict "vol/1#0#1"
                              (lruCache (engine admittedWorld)))),
                  [EvOnClose (VBlock sampleBlock);
                   EvOnDelete (VBlock sampleBlock)]))
    by (vm_compute; reflexivity).
  destruct (CreateBlock_evicts_after_failed_init (X := brokenStoreExternals)
              startedWorld (sampleRequest 0 [sampleSource 65536]) 65536 VNil
              0 (lruCache (engine admittedWorld)) _ [] _
              (ErrNew "no space left on device") (os startedWorld) true
              ltac:(discriminate) eq_refl ltac:(discriminate) Miss Set_
              eq_refl Ev) as (A & B & _).
  split; [exact A|]. rewrite B. vm_compute. reflexivity.
Defined.

(** A request whose sources sum to zero bytes, for a key that has a
    block in the cache: the block is evicted. *)
Lemma CreateBlock_zero_size_evicts_key_witness :
  lru.Keys (lruCache (engine admittedWorld)) = ["vol/1#0#1"]
  /\ fst (CreateBlock (X := sampleExternals)
            (sampleRequest 0 [sampleSource 0]) admittedWorld)
     = Ok (None, Some (ErrNew "alloc size is zero"))
  /\ lru.Keys
       (lruCache
          (engine
             (snd (CreateBlock (X := sampleExternals)
                     (sampleRequest 0 [sampleSource 0]) admittedWorld))))
     = [].
Proof.
  split; [reflexivity|].
  rewrite (CreateBlock_zero_size_evicts_key (X := sampleExternals)
             admittedWorld (sampleRequest 0 [sampleSource 0])
             ltac:(discriminate) eq_refl).
  split; vm_compute; reflexivity.
Defined.

(** Another file system is mounted on the root path, and the machine
    fails on reading directories and on mounting: [doMount] refuses and
    changes nothing. *)
Lemma doMount_refuses_foreign_content_witness :
  exists err : Err,
    doMount (X := sampleExternals)
      (worldOn (faultyMachine (Present [] [otherMount])))
    = (Ok (Some err), worldOn (faultyMachine (Present [] [otherMount]))).
Proof.
  apply (doMount_refuses_foreign_content (X := sampleExternals)
           (worldOn (faultyMachine (Present [] [otherMount])))).
  left. exists [], otherMount, []. split; reflexivity.
Defined.

Lemma NewCacheEngine_success_postcondition_witness :
  root (os startedWorld) = Present [] [sampleStore]
  /\ engine startedWorld
     = {| rootPath := "/cfs/tmpfs"; cachePrepareTaskCh := [];
          lruCache := lru.New 2 943718 (3600 * Second);
          closeC := ChanOpen; closed := false;
          config := {| MaxAlloc := 943718; Total := MiB; Capacity := 2 |} |}.
Proof.
  split; [reflexivity|].
  assert (Started : NewCacheEngine (X := sampleExternals) "/cfs/tmpfs" MiB
                      943718 2 (3600 * Second) (worldOn (machine Absent))
                    = (Ok (true, None), startedWorld))
    by (vm_compute; reflexivity).
  exact (proj2 (proj2 (NewCacheEngine_success_postcondition
                         (X := sampleExternals) _ _ _ _ _ _ _ _ Started))).
Defined.

(** A tmpfs without the init file that holds a block file is mounted on
    the root path: the engine does not start. *)
Lemma NewCacheEngine_tmpfs_without_init_file_witness :
  fst (startOn (Present [] [unmarkedStore]))
  = Ok (true, Some (ErrNew "not empty dir")).
Proof.
  unfold startOn.
  exact (NewCacheEngine_tmpfs_without_init_file (X := sampleExternals)
           (worldOn (machine (Present [] [unmarkedStore]))) "/cfs/tmpfs" MiB
           943718 2 (3600 * Second) [] unmarkedStore []
           (fun _ => eq_refl) eq_refl eq_refl eq_refl).
Defined.

(** The lookup panics during an admission: the request's lock stays
    taken. *)
Lemma lookup_panic_leaves_the_lock_held_witness :
  PrepareCache (LRU := panickingLru) (X := sampleExternals) 7
    (sampleRequest 0 [sampleSource 65536]) startedWorld
  = (Panicked "invalid memory address",
     emits [EvLock 1; EvLruPeek "vol/1#0#1"] startedWorld).
Proof.
  apply (lookup_panic_leaves_the_lock_held (LRU := panickingLru)
           (X := sampleExternals) startedWorld 7
           (sampleRequest 0 [sampleSource 65536]) 65536
           "invalid memory address");
    [discriminate | reflexivity | discriminate | reflexivity].
Defined.

(** Start on a new root path, then stop: the root path is left as an
    empty directory with nothing mounted. *)
Lemma Stop_undoes_the_mount_of_NewCacheEngine_witness :
  exists (es : list string) (ms : list Mount),
    fst (Stop startedWorld) = Ok None
    /\ root (os (snd (Stop startedWorld)))
       = Present es ms
    /\ es = [] /\ ms = [].
Proof.
  assert (Started : NewCacheEngine (X := sampleExternals) "/cfs/tmpfs" MiB
                      943718 2 (3600 * Second) (worldOn (machine Absent))
                    = (Ok (true, None), startedWorld))
    by (vm_compute; reflexivity).
  destruct (Stop_undoes_the_mount_of_NewCacheEngine (LRU := fCacheLru)
              (X := sampleExternals)
              _ _ _ _ _ _ _ _
              (snd (fst (lru.Close (lru.New 2 943718 (3600 * Second))))) []
              Started ltac:(vm_compute; reflexivity) eq_refl)
    as (es & ms & A & B & C & _).
  exists es, ms. split; [exact A|]. split; [exact B|]. exact (C eq_refl).
Defined.
